(** * Versioned configuration registry: validation, templating, store, API

    A shallow embedding of the Python service under [app/]:
    - [app/validation.py]  ([REQUIRED_FIELDS], [_dig], [validate_config_payload]),
    - [app/templating.py]  ([_render], [render_config]),
    - [app/db.py]          ([insert_config], [get_latest_version], [get_history]),
    - [app/api.py]         ([post_config], [get_history_route], [_handle_errors]),
    - [app/errors.py]      (the exception classes).

    Python values are a tagged tree, exceptions are an explicit result
    type, and the Twisted generators of [app/api.py] are resumable
    programs whose suspension points are the store calls they [yield]. *)

From Stdlib Require Import Bool Ascii String ZArith List Lia.
From Stdlib Require Import Permutation Sorted DecimalString.
Import ListNotations.
Local Open Scope string_scope.
Local Open Scope Z_scope.
Local Open Scope list_scope.

(** ** Python values *)

Module Py.

(** The trees handed over by [yaml.safe_load] / [json.loads].  A [dict]
    is an association list: Python dicts iterate in insertion order and
    the order decides which leaf is rendered (and fails) first.  Keys are
    strings, as in every JSON document.  A float is carried as its
    binary64 bit pattern; no claim computes with it.  A [str] is a
    sequence of code points below 256. *)
Unset Elimination Schemes.
Inductive pyval : Type :=
| PNone
| PBool (b : bool)
| PInt (n : Z)
| PFloat (bits : Z)
| PStr (s : string)
| PList (items : list pyval)
| PDict (items : list (string * pyval)).
Set Elimination Schemes.

(** Induction over a document: the hypothesis holds for every element of
    a list and every value of a dict. *)
Fixpoint pyval_induction (P : pyval -> Prop)
    (HNone : P PNone)
    (HBool : forall b, P (PBool b))
    (HInt : forall n, P (PInt n))
    (HFloat : forall bits, P (PFloat bits))
    (HStr : forall s, P (PStr s))
    (HList : forall items, Forall P items -> P (PList items))
    (HDict : forall items, Forall (fun kv => P (snd kv)) items -> P (PDict items))
    (v : pyval) {struct v} : P v :=
  let rec := pyval_induction P HNone HBool HInt HFloat HStr HList HDict in
  match v with
  | PNone => HNone
  | PBool b => HBool b
  | PInt n => HInt n
  | PFloat bits => HFloat bits
  | PStr s => HStr s
  | PList items =>
      HList items
        ((fix all (l : list pyval) : Forall P l :=
            match l with
            | [] => Forall_nil P
            | x :: t => Forall_cons x (rec x) (all t)
            end) items)
  | PDict items =>
      HDict items
        ((fix all (l : list (string * pyval)) : Forall (fun kv => P (snd kv)) l :=
            match l with
            | [] => Forall_nil _
            | kv :: t => Forall_cons kv (rec (snd kv)) (all t)
            end) items)
  end.

(** Exceptions of [app/errors.py] and the built-in ones the code raises
    or lets through.  [PyError] stands for any other exception class
    (database driver errors, [TypeError], ...), named by its class. *)
Inductive exn : Type :=
| BadRequest (msg : string)
| UnprocessableEntity (errors : list string)
| NotFound
| ValueError (msg : string)
| AssertionError
| PyError (cls : string).

Inductive result (A : Type) : Type :=
| Return (a : A)
| Raise (e : exn).
Arguments Return {A} a.
Arguments Raise {A} e.

(** A comprehension [[f(x) for x in l]]: the elements are evaluated left
    to right and the first exception ends the evaluation. *)
Definition traverse {A B : Type} (f : A -> result B) : list A -> result (list B) :=
  fix go (l : list A) : result (list B) :=
    match l with
    | [] => Return []
    | x :: t =>
        match f x with
        | Raise e => Raise e
        | Return y =>
            match go t with
            | Raise e => Raise e
            | Return t' => Return (y :: t')
            end
        end
    end.

(** The two classes used as [expected_type] in [REQUIRED_FIELDS]. *)
Inductive pytype : Type := TInt | TStr.

(** [expected_type.__name__] *)
Definition type_name (t : pytype) : string :=
  match t with TInt => "int" | TStr => "str" end.

(** [isinstance(val, t)]; [bool] is a subclass of [int]. *)
Definition isinstance (v : pyval) (t : pytype) : bool :=
  match t, v with
  | TInt, PInt _ => true
  | TInt, PBool _ => true
  | TStr, PStr _ => true
  | _, _ => false
  end.

(** [d.get(k)] on the item list of a dict; [None] when the key is absent. *)
Fixpoint dict_find (k : string) (d : list (string * pyval)) : option pyval :=
  match d with
  | [] => None
  | (k', v) :: rest => if String.eqb k k' then Some v else dict_find k rest
  end.

(** [k in d] *)
Definition dict_mem (k : string) (d : list (string * pyval)) : bool :=
  match dict_find k d with Some _ => true | None => false end.

(** [d.get(k)]: Python's [None] for a missing key. *)
Definition dict_get (k : string) (d : list (string * pyval)) : pyval :=
  match dict_find k d with Some v => v | None => PNone end.

(** [d[k] = v]: an existing key keeps its position, a new key goes last. *)
Fixpoint dict_set (k : string) (v : pyval) (d : list (string * pyval))
  : list (string * pyval) :=
  match d with
  | [] => [(k, v)]
  | (k', v') :: rest =>
      if String.eqb k k' then (k, v) :: rest else (k', v') :: dict_set k v rest
  end.

(** [needle in s] for strings. *)
Fixpoint contains (needle s : string) : bool :=
  String.prefix needle s
  || match s with
     | EmptyString => false
     | String _ rest => contains needle rest
     end.

(** [s.split(sep)] for a one-character separator. *)
Fixpoint split_acc (sep : ascii) (acc : string) (s : string) : list string :=
  match s with
  | EmptyString => [acc]
  | String c rest =>
      if Ascii.eqb c sep then acc :: split_acc sep EmptyString rest
      else split_acc sep (acc ++ String c EmptyString)%string rest
  end.

Definition split (sep : ascii) (s : string) : list string :=
  split_acc sep EmptyString s.

(** [c.isspace()] on code points below 256: U+0009..U+000D,
    U+001C..U+0020, U+0085 and U+00A0. *)
Definition isspace (c : ascii) : bool :=
  let n := nat_of_ascii c in
  ((9 <=? n) && (n <=? 13) || (28 <=? n) && (n <=? 32)
   || (n =? 133) || (n =? 160))%nat.

Fixpoint lstrip (s : string) : string :=
  match s with
  | EmptyString => EmptyString
  | String c rest => if isspace c then lstrip rest else s
  end.

(** [s.rstrip()]: a character is dropped when it is whitespace and
    everything after it was dropped too. *)
Fixpoint rstrip (s : string) : string :=
  match s with
  | EmptyString => EmptyString
  | String c rest =>
      match rstrip rest with
      | EmptyString => if isspace c then EmptyString else String c EmptyString
      | r => String c r
      end
  end.

(** [s.strip()] *)
Definition strip (s : string) : string := rstrip (lstrip s).

(** [str(n)] for an [int]. *)
Definition str_of_int (n : Z) : string :=
  NilZero.string_of_int (Z.to_int n).

(** CPython refuses to convert an [int] of more than 4300 digits to
    text ([str], [repr], [json.dumps]); [small_ints v] says [v] holds no
    such number. *)
Definition small_int (n : Z) : bool :=
  (String.length (str_of_int (Z.abs n)) <=? 4300)%nat.

Fixpoint small_ints (v : pyval) : bool :=
  match v with
  | PInt n => small_int n
  | PList items => forallb small_ints items
  | PDict items =>
      forallb (fun kv : string * pyval => let '(_, x) := kv in small_ints x) items
  | _ => true
  end.

(** [float]: the exponent field of a binary64 pattern is all ones for
    [nan], [inf] and [-inf] and for nothing else. *)
Definition not_finite (bits : Z) : bool :=
  Z.land (Z.shiftr bits 52) 2047 =? 2047.

(** ["\x00" in s] *)
Fixpoint has_nul (s : string) : bool :=
  match s with
  | EmptyString => false
  | String c rest => Ascii.eqb c "000" || has_nul rest
  end.

End Py.
Import Py.

(** ** app/validation.py *)

Module Validation.

Definition REQUIRED_FIELDS : list (string * pytype) :=
  [ ("version", TInt); ("database.host", TStr); ("database.port", TInt) ].

(** The loop of [_dig] over the parts of the path. *)
Fixpoint dig_parts (cur : pyval) (parts : list string) : pyval :=
  match parts with
  | [] => cur
  | part :: rest =>
      match cur with
      | PDict items =>
          match dict_find part items with
          | Some v => dig_parts v rest
          | None => PNone
          end
      | _ => PNone
      end
  end.

Definition _dig (d : pyval) (path : string) : pyval :=
  dig_parts d (split "." path).

(** One iteration of the loop over [REQUIRED_FIELDS]: the messages it
    appends. *)
Definition check_field (doc : pyval) (f : string * pytype) : list string :=
  let '(path, expected_type) := f in
  match _dig doc path with
  | PNone =>
      if negb (String.eqb path "version")
      then ["Missing required field: " ++ path]%string
      else []
  | val =>
      if negb (isinstance val expected_type)
      then ["Invalid type for " ++ path ++ ": expected "
              ++ type_name expected_type]%string
      else []
  end.

(** [isinstance(port, int) and not (1 <= port <= 65535)] *)
Definition port_out_of_range (port : pyval) : bool :=
  match port with
  | PInt n => negb ((1 <=? n) && (n <=? 65535))
  | PBool b => negb ((1 <=? Z.b2z b) && (Z.b2z b <=? 65535))
  | _ => false
  end.

(** [isinstance(host, str) and not host.strip()] *)
Definition host_blank (host : pyval) : bool :=
  match host with
  | PStr s => match strip s with EmptyString => true | _ => false end
  | _ => false
  end.

Definition validate_config_payload (doc : pyval) : list string :=
  let errors := flat_map (check_field doc) REQUIRED_FIELDS in
  let port := _dig doc "database.port" in
  let errors :=
    if port_out_of_range port
    then errors ++ ["Invalid database.port: must be 1..65535"]
    else errors in
  let host := _dig doc "database.host" in
  let errors :=
    if host_blank host
    then errors ++ ["Invalid database.host: must be non-empty string"]
    else errors in
  errors.

End Validation.
Import Validation.

(** ** app/templating.py *)

Module Jinja.

(** What [env.from_string(val).render], called with the context as
    keyword arguments, can do: return the rendered text, raise a
    [jinja2.TemplateError] (syntax error, or an undefined name under
    [StrictUndefined]), or raise some other exception, which the
    [except TemplateError] clause of [_render] does not catch. *)
Inductive outcome : Type :=
| Rendered (text : string)
| TemplateError (msg : string)
| Raised (e : exn).

(** The fragment of the template language that is evaluated here:
    literal text and print statements [{{ ... }}] whose expression is a
    variable name, [name is defined], or [name | default('text')].  A
    print statement made of two or more names is the one syntax error
    the fragment knows.  Every other template is left to the parameter
    of [jinja_render]. *)
Inductive seg : Type :=
| Lit (text : string)
| Var (name : string)
| IsDefined (name : string)
| Default (name : string) (text : string).

(** A template cut at its print statements. *)
Inductive chunk : Type :=
| Text (text : string)
| Expr (body : string).

Inductive mode : Type :=
| MText (acc : string)
| MExpr (acc : string).

Definition is_lbrace (c : ascii) : bool := Ascii.eqb c "{".
Definition is_rbrace (c : ascii) : bool := Ascii.eqb c "}".
Definition is_newline (c : ascii) : bool :=
  Ascii.eqb c "010" || Ascii.eqb c "013".

Definition name_start (c : ascii) : bool :=
  let n := nat_of_ascii c in
  ((65 <=? n) && (n <=? 90) || (97 <=? n) && (n <=? 122) || (n =? 95))%nat.

Definition name_char (c : ascii) : bool :=
  let n := nat_of_ascii c in
  (name_start c || (48 <=? n) && (n <=? 57))%nat.

Definition snoc (s : string) (c : ascii) : string :=
  (s ++ String c EmptyString)%string.

(** The chunks of a template.  [None]: the template is outside the
    fragment (a single brace, a newline, a block or comment tag, a print
    statement that is not closed). *)
Fixpoint chunks (m : mode) (s : string) : option (list chunk) :=
  match s with
  | EmptyString =>
      match m with
      | MText acc => Some [Text acc]
      | MExpr _ => None
      end
  | String c rest =>
      match m with
      | MText acc =>
          if is_lbrace c then
            match rest with
            | String c' rest' =>
                if is_lbrace c'
                then option_map (cons (Text acc)) (chunks (MExpr EmptyString) rest')
                else None
            | EmptyString => None
            end
          else if is_rbrace c || is_newline c then None
          else chunks (MText (snoc acc c)) rest
      | MExpr acc =>
          if is_rbrace c then
            match rest with
            | String c' rest' =>
                if is_rbrace c'
                then option_map (cons (Expr acc)) (chunks (MText EmptyString) rest')
                else None
            | EmptyString => None
            end
          else if is_lbrace c || is_newline c then None
          else chunks (MExpr (snoc acc c)) rest
      end
  end.

(** Tokens of an expression. *)
Inductive token : Type :=
| TName (name : string)
| TPipe
| TLParen
| TRParen
| TQuoted (text : string).

Inductive lex : Type :=
| LIdle
| LName (acc : string)
| LStr (quote : ascii) (acc : string).

Definition is_quote (c : ascii) : bool := Ascii.eqb c "039" || Ascii.eqb c "034".
Definition is_backslash (c : ascii) : bool := Ascii.eqb c "092".

(** A character that starts a token, seen outside any token. *)
Definition start_token (c : ascii) : option (lex * list token) :=
  if Ascii.eqb c " " then Some (LIdle, [])
  else if name_start c then Some (LName (String c EmptyString), [])
  else if is_quote c then Some (LStr c EmptyString, [])
  else if Ascii.eqb c "|" then Some (LIdle, [TPipe])
  else if Ascii.eqb c "(" then Some (LIdle, [TLParen])
  else if Ascii.eqb c ")" then Some (LIdle, [TRParen])
  else None.

(** The tokens of an expression; [None] for a character the fragment
    has no token for (digits, operators, dots, brackets, escapes). *)
Fixpoint tokens (l : lex) (s : string) : option (list token) :=
  match s with
  | EmptyString =>
      match l with
      | LIdle => Some []
      | LName acc => Some [TName acc]
      | LStr _ _ => None
      end
  | String c rest =>
      match l with
      | LIdle =>
          match start_token c with
          | Some (l', ts) => option_map (app ts) (tokens l' rest)
          | None => None
          end
      | LName acc =>
          if name_char c then tokens (LName (snoc acc c)) rest
          else
            match start_token c with
            | Some (l', ts) => option_map (fun r => TName acc :: ts ++ r) (tokens l' rest)
            | None => None
            end
      | LStr q acc =>
          if Ascii.eqb c q then option_map (cons (TQuoted acc)) (tokens LIdle rest)
          else if is_quote c || is_backslash c then None
          else tokens (LStr q (snoc acc c)) rest
      end
  end.

(** Names that are not plain variables: constants and keywords of the
    expression grammar, the globals of a default [Environment], and the
    names the runtime binds itself. *)
Definition reserved : list string :=
  [ "true"; "false"; "none"; "True"; "False"; "None";
    "not"; "and"; "or"; "if"; "else"; "in"; "is";
    "range"; "dict"; "lipsum"; "cycler"; "joiner"; "namespace";
    "self"; "loop"; "super"; "varargs"; "kwargs"; "caller"; "context"; "_" ].

Definition plain_name (x : string) : bool :=
  negb (existsb (String.eqb x) reserved).

Definition plain_token (t : token) : bool :=
  match t with TName x => plain_name x | _ => false end.

(** What a print statement is. *)
Inductive stmt : Type :=
| Print (g : seg)
| SyntaxError (msg : string)
| Unknown.

(** The parser expects the end of the print statement after [a] and
    finds the name [b]. *)
Definition unexpected_name (b : string) : string :=
  ("expected token 'end of print statement', got '" ++ b ++ "'")%string.

Definition statement (ts : list token) : stmt :=
  match ts with
  | [TName x] => if plain_name x then Print (Var x) else Unknown
  | [TName x; TName i; TName d] =>
      if plain_name x && String.eqb i "is" && String.eqb d "defined"
      then Print (IsDefined x)
      else if forallb plain_token ts then SyntaxError (unexpected_name i)
      else Unknown
  | [TName x; TPipe; TName f; TLParen; TQuoted t; TRParen] =>
      if plain_name x && String.eqb f "default" then Print (Default x t)
      else Unknown
  | TName _ :: TName b :: _ =>
      if forallb plain_token ts then SyntaxError (unexpected_name b) else Unknown
  | _ => Unknown
  end.

(** A template as the fragment reads it. *)
Inductive parsed : Type :=
| Segs (segs : list seg)
| Invalid (msg : string)
| Outside.

(** Parsing stops at the first print statement that is a syntax error,
    as the parser of the library does. *)
Fixpoint parse_chunks (cs : list chunk) : parsed :=
  match cs with
  | [] => Segs []
  | Text t :: rest =>
      match parse_chunks rest with
      | Segs segs => Segs (Lit t :: segs)
      | other => other
      end
  | Expr body :: rest =>
      match tokens LIdle body with
      | None => Outside
      | Some ts =>
          match statement ts with
          | Unknown => Outside
          | SyntaxError msg => Invalid msg
          | Print g =>
              match parse_chunks rest with
              | Segs segs => Segs (g :: segs)
              | other => other
              end
          end
      end
  end.

Definition parse (val : string) : parsed :=
  match chunks (MText EmptyString) val with
  | Some cs => parse_chunks cs
  | None => Outside
  end.

(** [Rendered t] followed by the outcome of the rest of the template. *)
Definition prepend (t : string) (o : option outcome) : option outcome :=
  match o with
  | Some (Rendered u) => Some (Rendered (t ++ u)%string)
  | other => other
  end.

(** [str(v)] for the values whose text the fragment computes: a [str]
    and a small [int]. *)
Definition printed (v : pyval) : option string :=
  match v with
  | PStr s => Some s
  | PInt n => if small_int n then Some (str_of_int n) else None
  | _ => None
  end.

(** [str(b)] for a [bool]. *)
Definition str_of_bool (b : bool) : string :=
  if b then "True" else "False".

(** The outcome of a template one of whose pieces prints a text the
    fragment does not compute: an error raised further right is still
    raised, any other outcome is outside the fragment. *)
Definition skip (o : option outcome) : option outcome :=
  match o with
  | Some (TemplateError msg) => Some (TemplateError msg)
  | _ => None
  end.

(** Printing the value [v] in front of the rest of the template.  Any
    value without an overlong [int] prints without error. *)
Definition print (v : pyval) (rest : option outcome) : option outcome :=
  match printed v with
  | Some t => prepend t rest
  | None => if small_ints v then skip rest else None
  end.

(** Output of a parsed template, left to right.  A name missing from the
    context raises [UndefinedError] when it is printed; [is defined]
    and [default] look at it without raising. *)
Fixpoint emit (ctx : list (string * pyval)) (segs : list seg) : option outcome :=
  match segs with
  | [] => Some (Rendered EmptyString)
  | Lit t :: rest => prepend t (emit ctx rest)
  | Var x :: rest =>
      match dict_find x ctx with
      | None => Some (TemplateError ("'" ++ x ++ "' is undefined")%string)
      | Some v => print v (emit ctx rest)
      end
  | IsDefined x :: rest => prepend (str_of_bool (dict_mem x ctx)) (emit ctx rest)
  | Default x t :: rest =>
      match dict_find x ctx with
      | None => prepend t (emit ctx rest)
      | Some v => print v (emit ctx rest)
      end
  end.

(** [TypeError] of the call [render] with keyword arguments taken from
    something that is not a mapping, or from a mapping with a [self]
    key, which clashes with the receiver of [render]. *)
Definition bad_keywords : outcome := Raised (PyError "TypeError").

(** The fragment decides a template with a syntax error whatever the
    context is (the error is raised by [from_string]), and a template it
    parses against any context. *)
Definition in_fragment (val : string) (context : pyval) : option outcome :=
  match parse val with
  | Invalid msg => Some (TemplateError msg)
  | Outside => None
  | Segs segs =>
      match context with
      | PDict ctx =>
          if dict_mem "self" ctx then Some bad_keywords else emit ctx segs
      | _ => Some bad_keywords
      end
  end.

End Jinja.

Module Templating.
Import Jinja.

Section Render.

(** Jinja2 is a library, not part of the repository: everything outside
    the substitution fragment is left to this parameter. *)
Variable jinja_other : string -> pyval -> outcome.

(** [env.from_string(val).render], the context passed as keyword
    arguments, with
    [env = Environment(undefined=StrictUndefined, autoescape=False)]. *)
Definition jinja_render (val : string) (context : pyval) : outcome :=
  match in_fragment val context with
  | Some o => o
  | None => jinja_other val context
  end.

(** ["{{" in val or "{%" in val] *)
Definition has_tpl (val : string) : bool :=
  contains "{{" val || contains "{%" val.

Fixpoint _render (val : pyval) (context : pyval) {struct val} : result pyval :=
  match val with
  | PStr s =>
      if has_tpl s then
        match jinja_render s context with
        | Rendered text => Return (PStr text)
        | TemplateError e =>
            Raise (ValueError ("Template render error: " ++ e)%string)
        | Raised e => Raise e
        end
      else Return val
  | PList items =>
      match traverse (fun x => _render x context) items with
      | Raise e => Raise e
      | Return items' => Return (PList items')
      end
  | PDict items =>
      match traverse (fun kv : string * pyval =>
                        let '(k, v) := kv in
                        match _render v context with
                        | Raise e => Raise e
                        | Return v' => Return (k, v')
                        end) items with
      | Raise e => Raise e
      | Return items' => Return (PDict items')
      end
  | _ => Return val
  end.

(** [render_config]: [_render] followed by [assert isinstance(rendered, dict)]. *)
Definition render_config (data context : pyval) : result pyval :=
  match _render data context with
  | Raise e => Raise e
  | Return (PDict items) => Return (PDict items)
  | Return _ => Raise AssertionError
  end.

End Render.
End Templating.
Import Jinja Templating.

(** ** app/db.py *)

Module Db.

(** Modelled from the spec: the schema of the table [configurations] is
    not part of the Python sources.  It is a single append-only relation
    with the columns the queries of [app/db.py] name ([id], [service],
    [version], [payload], [created_at]); [version] is a 32-bit integer
    column that is never [NULL], [created_at] is assigned by the store
    at persistence time, and the store enforces uniqueness of
    [(service, version)].  [id] numbers the rows; no query reads it.
    [payload] is kept as the document that was sent: the normal form
    [jsonb] gives it (order of keys, notation of numbers) is not
    modelled. *)
Record row : Type := mk_row {
  row_id : Z;
  row_service : string;
  row_version : Z;
  row_payload : pyval;
  row_created_at : Z
}.

Record store : Type := mk_store {
  rows : list row;
  next_id : Z
}.

Definition empty_store : store := mk_store [] 1.

(** [WHERE service=%s] *)
Definition of_service (service : string) (r : row) : bool :=
  String.eqb (row_service r) service.

Definition has_version (service : string) (version : Z) (st : store) : bool :=
  existsb (fun r => of_service service r && (row_version r =? version)) (rows st).

(** The driver's and the server's exception classes, as [PyError] names,
    and the two [ValueError]s of the client side. *)
Definition UniqueViolation : exn := PyError "psycopg2.errors.UniqueViolation".
Definition DatatypeMismatch : exn := PyError "psycopg2.errors.DatatypeMismatch".
Definition InvalidLimit : exn :=
  PyError "psycopg2.errors.InvalidRowCountInLimitClause".
Definition InvalidTextRepresentation : exn :=
  PyError "psycopg2.errors.InvalidTextRepresentation".
Definition UntranslatableCharacter : exn :=
  PyError "psycopg2.errors.UntranslatableCharacter".
Definition NumericValueOutOfRange : exn :=
  PyError "psycopg2.errors.NumericValueOutOfRange".
Definition NotNullViolation : exn := PyError "psycopg2.errors.NotNullViolation".
Definition ProgrammingError : exn := PyError "psycopg2.ProgrammingError".
Definition NulInLiteral : exn :=
  ValueError "A string literal cannot contain NUL (0x00) characters.".
Definition IntTooLong : exn :=
  ValueError "Exceeds the limit (4300 digits) for integer string conversion".

(** The range of the column [version]. *)
Definition int4 (n : Z) : bool :=
  (-2147483648 <=? n) && (n <=? 2147483647).

(** What the server makes of a text sent for an integer column: decimal
    digits with an optional sign, blanks before and after. *)
Definition c_isspace (c : ascii) : bool :=
  let n := nat_of_ascii c in ((9 <=? n) && (n <=? 13) || (n =? 32))%nat.

Definition is_digit (c : ascii) : bool :=
  let n := nat_of_ascii c in ((48 <=? n) && (n <=? 57))%nat.

Fixpoint skip_space (s : string) : string :=
  match s with
  | EmptyString => EmptyString
  | String c rest => if c_isspace c then skip_space rest else s
  end.

Fixpoint all_c_space (s : string) : bool :=
  match s with
  | EmptyString => true
  | String c rest => c_isspace c && all_c_space rest
  end.

Fixpoint digits (acc : option Z) (s : string) : option Z :=
  match s with
  | EmptyString => acc
  | String c rest =>
      if is_digit c then
        digits (Some (10 * match acc with Some a => a | None => 0 end
                      + (Z.of_nat (nat_of_ascii c) - 48))) rest
      else if all_c_space s then acc else None
  end.

Definition int_of_text (s : string) : option Z :=
  match skip_space s with
  | String "-" rest => option_map Z.opp (digits None rest)
  | String "+" rest => digits None rest
  | t => digits None t
  end.

(** The integer nearest to a finite [float], halves away from zero: the
    driver sends a float as a numeric literal, which the server rounds
    for an integer column. *)
Definition float_round (bits : Z) : Z :=
  let e := Z.land (Z.shiftr bits 52) 2047 in
  let m := Z.land bits (2 ^ 52 - 1) in
  let n :=
    if e =? 0 then 0
    else if 1075 <=? e then Z.shiftl (2 ^ 52 + m) (e - 1075)
    else Z.shiftr (2 ^ 52 + m + Z.shiftl 1 (1074 - e)) (1075 - e) in
  if Z.testbit bits 63 then - n else n.

(** The number the column [version] receives for the parameter
    [version].  [post_config] passes what the validator let through, an
    [int] or a [bool]; a [bool] goes as an SQL boolean, which the column
    does not take.  A text and a float are converted by the server,
    [None] goes as [NULL], a sequence as an array, and the driver has no
    adapter for a [dict]. *)
Definition column_value (version : pyval) : result Z :=
  match version with
  | PInt n => Return n
  | PBool _ => Raise DatatypeMismatch
  | PNone => Raise NotNullViolation
  | PFloat bits =>
      if not_finite bits then Raise NumericValueOutOfRange
      else Return (float_round bits)
  | PStr s =>
      if has_nul s then Raise NulInLiteral
      else match int_of_text s with
           | Some n => Return n
           | None => Raise InvalidTextRepresentation
           end
  | PList [] => Raise InvalidTextRepresentation
  | PList (_ :: _) => Raise DatatypeMismatch
  | PDict _ => Raise ProgrammingError
  end.

(** What the input conversion of [jsonb] refuses in the text
    [json_dumps(payload)], in the order of the text: a [NaN] or
    [Infinity] token, which [json.dumps] writes for a float that is not
    finite, and the escape of U+0000 in a string or a key. *)
Fixpoint jsonb_errors (v : pyval) : list exn :=
  match v with
  | PFloat bits => if not_finite bits then [InvalidTextRepresentation] else []
  | PStr s => if has_nul s then [UntranslatableCharacter] else []
  | PList items => flat_map jsonb_errors items
  | PDict items =>
      flat_map (fun kv : string * pyval =>
                  let '(k, x) := kv in
                  (if has_nul k then [UntranslatableCharacter] else [])
                  ++ jsonb_errors x) items
  | _ => []
  end.

(** The error of an [INSERT] whose values cannot be sent or converted:
    [json_dumps] fails on an overlong [int], the driver on a U+0000 in
    [service], the server on the text of the payload and on a version
    outside the range of the column. *)
Definition refused (service : string) (version : Z) (payload : pyval)
  : option exn :=
  if negb (small_ints payload) then Some IntTooLong
  else if has_nul service then Some NulInLiteral
  else match jsonb_errors payload with
       | e :: _ => Some e
       | [] => if int4 version then None else Some NumericValueOutOfRange
       end.

(** The table: a row is appended at store time [now] unless the
    uniqueness constraint rejects it. *)
Definition insert_row (now : Z) (service : string) (version : Z)
    (payload : pyval) (st : store) : result Z * store :=
  if has_version service version st then (Raise UniqueViolation, st)
  else
    let r := mk_row (next_id st) service version payload now in
    (Return (next_id st), mk_store (rows st ++ [r]) (next_id st + 1)).

(** [insert_config]: the [INSERT ... RETURNING id] at store time [now].
    The row is written when the table takes it and nothing about its
    values is refused; otherwise the call fails and the table is as it
    was.  When a row is both a duplicate and refused, the failure is
    reported here as the duplicate; no caller tells the failures
    apart. *)
Definition insert_config (now : Z) (service : string) (version : pyval)
    (payload : pyval) (st : store) : result Z * store :=
  match column_value version with
  | Raise e => (Raise e, st)
  | Return n =>
      match insert_row now service n payload st with
      | (Raise e, _) => (Raise e, st)
      | (Return id, st') =>
          match refused service n payload with
          | Some e => (Raise e, st)
          | None => (Return id, st')
          end
      end
  end.

(** SQL [MAX]: [NULL] over no rows. *)
Fixpoint sql_max (l : list Z) : option Z :=
  match l with
  | [] => None
  | x :: t => match sql_max t with
              | None => Some x
              | Some m => Some (Z.max x m)
              end
  end.

(** [get_latest_version]: [SELECT MAX(version) ... WHERE service=%s]. *)
Definition get_latest_version (service : string) (st : store) : option Z :=
  sql_max (map row_version (filter (of_service service) (rows st))).

(** [ORDER BY created_at DESC].  SQL leaves the order of rows with equal
    keys open; this insertion sort is one such order. *)
Fixpoint insert_desc (r : row) (l : list row) : list row :=
  match l with
  | [] => [r]
  | x :: t =>
      if row_created_at x <? row_created_at r then r :: l
      else x :: insert_desc r t
  end.

Fixpoint order_by_created_at_desc (l : list row) : list row :=
  match l with
  | [] => []
  | r :: t => insert_desc r (order_by_created_at_desc t)
  end.

(** The rows selected by the query of [get_history], for [limit >= 0]. *)
Definition history_rows (service : string) (limit : Z) (st : store) : list row :=
  firstn (Z.to_nat limit)
    (order_by_created_at_desc (filter (of_service service) (rows st))).

Section History.

(** [to_char(created_at AT TIME ZONE 'UTC', ...)]: the ISO text of an
    instant; formatting is done by the store. *)
Variable to_char : Z -> string.

(** [get_history]; a negative [LIMIT] is an SQL error. *)
Definition get_history (service : string) (limit : Z) (st : store)
  : result (list (Z * string)) :=
  if limit <? 0 then Raise InvalidLimit
  else Return (map (fun r => (row_version r, to_char (row_created_at r)))
                   (history_rows service limit st)).

End History.

(** [ORDER BY version DESC], by the same insertion sort. *)
Fixpoint insert_version_desc (r : row) (l : list row) : list row :=
  match l with
  | [] => [r]
  | x :: t =>
      if row_version x <? row_version r then r :: l
      else x :: insert_version_desc r t
  end.

Fixpoint order_by_version_desc (l : list row) : list row :=
  match l with
  | [] => []
  | r :: t => insert_version_desc r (order_by_version_desc t)
  end.

(** [WHERE service=%s AND version=%s] *)
Definition of_service_version (service : string) (version : Z) (r : row) : bool :=
  of_service service r && (row_version r =? version).

(** [get_config]: the latest row of the service for [version=None], the
    row of that version otherwise; [res[0] if res else None]. *)
Definition get_config (service : string) (version : option Z) (st : store)
  : option (Z * pyval) :=
  let res :=
    match version with
    | None =>
        firstn 1 (order_by_version_desc (filter (of_service service) (rows st)))
    | Some v => filter (of_service_version service v) (rows st)
    end in
  match res with
  | r :: _ => Some (row_version r, row_payload r)
  | [] => None
  end.

End Db.

(** ** app/api.py *)

Module Api.

(** The store calls of [app/db.py] a route can wait for, indexed by the
    type of their value. *)
Inductive call : Type -> Type :=
| GetLatestVersion (service : string) : call (option Z)
| InsertConfig (service : string) (version payload : pyval) : call Z
| GetHistory (service : string) (limit : Z) : call (list (Z * string)).

(** A route is a generator driven by Twisted: it runs until it yields a
    store call, and is resumed with the call's value or with the
    exception the call failed with. *)
Inductive io (A : Type) : Type :=
| Done (r : result A)
| Yield {X : Type} (c : call X) (k : result X -> io A).
Arguments Done {A} r.
Arguments Yield {A X} c k.

Definition ret {A} (a : A) : io A := Done (Return a).
Definition raise {A} (e : exn) : io A := Done (Raise e).

(** A [yield] outside any [try]: an exception thrown into the generator
    at the suspension point leaves the generator. *)
Definition resume {A B} (k : A -> io B) (r : result A) : io B :=
  match r with
  | Return a => k a
  | Raise e => raise e
  end.

Notation "x <- 'yield' c ;; p" :=
  (Yield c (resume (fun x => p)))
  (at level 61, c at next level, p at level 200, right associativity).

(** Status code and JSON body of a response. *)
Definition response : Type := Z * pyval.

Definition _json (status : Z) (body : pyval) : response := (status, body).

Definition _handle_errors (err : exn) : response :=
  match err with
  | BadRequest msg => _json 400 (PDict [("error", PStr msg)])
  | UnprocessableEntity errors =>
      _json 422 (PDict [("errors", PList (map PStr errors))])
  | NotFound => _json 404 (PDict [("error", PStr "service not found")])
  | _ => _json 500 (PDict [("error", PStr "internal server error")])
  end.

(** What the server answers for a finished route. *)
Definition respond (r : result response) : response :=
  match r with
  | Return resp => resp
  | Raise e => _handle_errors e
  end.

(** What [yaml.safe_load(raw.decode("utf-8"))] can do. *)
Inductive loaded : Type :=
| Loaded (data : pyval)
| YAMLError (msg : string)
| LoadRaised (e : exn).

Section Routes.

(** The YAML parser is a collaborator. *)
Variable safe_load : string -> loaded.

Definition post_config (raw : string) (service : string) : io response :=
  match raw with
  | EmptyString => raise (BadRequest "empty body")
  | _ =>
      match safe_load raw with
      | YAMLError e => raise (BadRequest ("YAML parse error: " ++ e)%string)
      | LoadRaised e => raise e
      | Loaded (PDict data) =>
          match validate_config_payload (PDict data) with
          | (_ :: _) as errors => raise (UnprocessableEntity errors)
          | [] =>
              match dict_get "version" data with
              | PNone =>
                  maxv <- yield (GetLatestVersion service) ;;
                  let version :=
                    match maxv with None => 1 | Some m => m + 1 end in
                  let data := dict_set "version" (PInt version) data in
                  _i <- yield (InsertConfig service (PInt version) (PDict data)) ;;
                  ret (_json 200
                         (PDict [("service", PStr service);
                                 ("version", PInt version);
                                 ("status", PStr "saved")]))
              | version =>
                  _i <- yield (InsertConfig service version (PDict data)) ;;
                  ret (_json 200
                         (PDict [("service", PStr service);
                                 ("version", version);
                                 ("status", PStr "saved")]))
              end
          end
      | Loaded _ => raise (BadRequest "YAML must represent a mapping (object)")
      end
  end.


End Routes.

Section Run.

Variable to_char : Z -> string.

(** A store call executed at store time [now]. *)
Definition perform {X} (now : Z) (c : call X) (st : Db.store)
  : result X * Db.store :=
  match c in call T return result T * Db.store with
  | GetLatestVersion s => (Return (Db.get_latest_version s st), st)
  | InsertConfig s v d => Db.insert_config now s v d st
  | GetHistory s l => (Db.get_history to_char s l st, st)
  end.

(** One resumption: the pending store call is executed and the generator
    advances to its next suspension point. *)
Definition step {A} (now : Z) (p : io A) (st : Db.store) : io A * Db.store :=
  match p with
  | Done r => (Done r, st)
  | Yield c k => let '(r, st') := perform now c st in (k r, st')
  end.

(** A request served alone, with no other request in between. *)
Fixpoint run {A} (now : Z) (p : io A) (st : Db.store) : result A * Db.store :=
  match p with
  | Done r => (r, st)
  | Yield c k => let '(r, st') := perform now c st in run now (k r) st'
  end.

End Run.

(** [is_insert P c]: [c] is not an [insert_config] call, or its arguments
    satisfy [P]. *)
Definition is_insert {X} (P : string -> pyval -> pyval -> Prop) (c : call X)
  : Prop :=
  match c with
  | InsertConfig s v d => P s v d
  | _ => True
  end.

(** [inserts P p]: whatever the store answers, every [insert_config]
    call [p] issues has arguments satisfying [P]. *)
Fixpoint inserts {A} (P : string -> pyval -> pyval -> Prop) (p : io A) : Prop :=
  match p with
  | Done _ => True
  | Yield c k => is_insert P c /\ forall r, inserts P (k r)
  end.

(** [final p]: [p] has finished; it issues no further store call. *)
Definition final {A} (p : io A) : Prop :=
  match p with Done _ => True | Yield _ _ => False end.

(** [no_recovery p]: a store call of [p] that fails ends the request
    with the exception of the call, and nothing follows an
    [insert_config] call, failed or not. *)
Fixpoint no_recovery {A} (p : io A) : Prop :=
  match p with
  | Done _ => True
  | Yield c k =>
      (forall e, k (Raise e) = Done (Raise e))
      /\ (forall x, no_recovery (k (Return x)))
      /\ (is_insert (fun _ _ _ => forall r, final (k r)) c)
  end.

End Api.
Import Api.

(** ** app/models.py *)

Module Models.

(** [ConfigModel.version_type_if_present], the validator of the field
    [data]: the dict is handed back unchanged unless it has a [version]
    key whose value is not an [int]. *)
Definition version_type_if_present (v : list (string * pyval))
  : result (list (string * pyval)) :=
  if dict_mem "version" v && negb (isinstance (dict_get "version" v) TInt)
  then Raise (ValueError "version must be integer")
  else Return v.

End Models.

(** ** app/api.py, the read routes *)

Module Read.

(** The parts of a request the routes look at: the query arguments
    ([request.args], a list of values per name) and the body. *)
Record request : Type := mk_request {
  args : list (string * list string);
  content : string
}.

(** [request.args.get(name)] *)
Fixpoint args_find (name : string) (a : list (string * list string))
  : option (list string) :=
  match a with
  | [] => None
  | (k, vs) :: rest => if String.eqb name k then Some vs else args_find name rest
  end.

(** [_read_body] *)
Definition _read_body (req : request) : string := content req.

(** What [json.loads] can do with a text: a value, a
    [json.JSONDecodeError], or another exception (the body does not
    decode as UTF-8, ...). *)
Inductive jloaded : Type :=
| JValue (v : pyval)
| JSONDecodeError (msg : string)
| JRaised (e : exn).

(** The read routes wait for [get_config] only. *)
Inductive rio (A : Type) : Type :=
| RDone (r : result A)
| GetConfig (service : string) (version : option Z)
            (k : result (option (Z * pyval)) -> rio A).
Arguments RDone {A} r.
Arguments GetConfig {A} service version k.

(** A request served against a store; reading leaves the store alone. *)
Fixpoint run {A} (p : rio A) (st : Db.store) : result A :=
  match p with
  | RDone r => r
  | GetConfig s v k => run (k (Return (Db.get_config s v st))) st
  end.

Section Routes.

(** Collaborators: [int(b.decode())] on a query value ([None] when it
    raises [ValueError], which [UnicodeDecodeError] is too),
    [json.loads(raw.decode("utf-8"))] on a body, [json.loads] on a [str],
    [json.dumps], and the template engine outside the substitution
    fragment.  An exception written [PyError] derives from none of the
    classes named in [exn]. *)
Variable py_int : string -> option Z.
Variable json_loads_body : string -> jloaded.
Variable json_loads : string -> jloaded.
Variable json_dumps : pyval -> string.
Variable jinja_other : string -> pyval -> Jinja.outcome.

(** The [version] query argument of both routes. *)
Definition version_arg (req : request) : result (option Z) :=
  match args_find "version" (args req) with
  | None => Return None
  | Some [] => Raise (PyError "IndexError")
  | Some (b :: _) =>
      match py_int b with
      | Some n => Return (Some n)
      | None => Raise (BadRequest "version must be integer")
      end
  end.

(** [args.get(b"template", [b"0"])[0] == b"1"] *)
Definition template_arg (req : request) : result bool :=
  match args_find "template" (args req) with
  | None => Return false
  | Some [] => Raise (PyError "IndexError")
  | Some (b :: _) => Return (String.eqb b "1")
  end.

(** A [json.loads] outside any [try]. *)
Definition loads_or_raise (j : jloaded) : result pyval :=
  match j with
  | JValue v => Return v
  | JSONDecodeError _ => Raise (PyError "json.JSONDecodeError")
  | JRaised e => Raise e
  end.

(** The template context read from the body: [{}] for an empty body. *)
Definition body_context (req : request) : result pyval :=
  match _read_body req with
  | EmptyString => Return (PDict [])
  | raw =>
      match json_loads_body raw with
      | JValue v => Return v
      | JSONDecodeError e =>
          Raise (BadRequest ("Invalid JSON body for template context: " ++ e)%string)
      | JRaised e => Raise e
      end
  end.

(** [render_config] inside [try ... except ValueError]. *)
Definition render_or_422 (payload context : pyval) : result pyval :=
  match render_config jinja_other payload context with
  | Return rendered => Return rendered
  | Raise (ValueError msg) => Raise (UnprocessableEntity [msg])
  | Raise e => Raise e
  end.

(** The payload as [get_config_route] normalises it: a [str] is parsed,
    a dict is kept, anything else goes through [json.dumps] and
    [json.loads].  (The store of this model holds no [bytes].) *)
Definition payload_of_get (payload : pyval) : result pyval :=
  match payload with
  | PStr s => loads_or_raise (json_loads s)
  | PDict _ => Return payload
  | other => loads_or_raise (json_loads (json_dumps other))
  end.

(** The payload as [render_config_route] normalises it. *)
Definition payload_of_render (payload : pyval) : result pyval :=
  match payload with
  | PStr s => loads_or_raise (json_loads s)
  | other => Return other
  end.

Definition bind {A B} (r : result A) (k : A -> result B) : result B :=
  match r with
  | Return a => k a
  | Raise e => Raise e
  end.

Definition get_config_route (req : request) (service : string) : rio response :=
  match version_arg req with
  | Raise e => RDone (Raise e)
  | Return version =>
      GetConfig service version (fun got =>
        RDone
          (bind got (fun row =>
           match row with
           | None => Raise NotFound
           | Some (_ver, payload) =>
               bind (payload_of_get payload) (fun payload =>
               bind (template_arg req) (fun template =>
               if template then
                 bind (body_context req) (fun context =>
                 bind (render_or_422 payload context) (fun payload =>
                 Return (_json 200 payload)))
               else Return (_json 200 payload)))
           end)))
  end.

Definition render_config_route (req : request) (service : string) : rio response :=
  match version_arg req with
  | Raise e => RDone (Raise e)
  | Return version =>
      GetConfig service version (fun got =>
        RDone
          (bind got (fun row =>
           match row with
           | None => Raise NotFound
           | Some (_ver, payload) =>
               bind (payload_of_render payload) (fun payload =>
               bind (body_context req) (fun context =>
               bind (render_or_422 payload context) (fun rendered =>
               Return (_json 200 rendered))))
           end)))
  end.

End Routes.
End Read.

(** ** Notions used to state the properties *)

Module Props.

(** A dotted path resolves by descending through nested maps; it is
    absent when a key on the way is missing or a value on the way is not
    a map.  A field whose value is [null] is present. *)
Fixpoint resolve (cur : pyval) (parts : list string) : option pyval :=
  match parts with
  | [] => Some cur
  | part :: rest =>
      match cur with
      | PDict items =>
          match dict_find part items with
          | Some v => resolve v rest
          | None => None
          end
      | _ => None
      end
  end.

Definition present (doc : pyval) (path : string) (v : pyval) : Prop :=
  resolve doc (split "." path) = Some v.

Definition absent (doc : pyval) (path : string) : Prop :=
  resolve doc (split "." path) = None.

Definition type_error (path : string) (t : pytype) : string :=
  ("Invalid type for " ++ path ++ ": expected " ++ type_name t)%string.

Definition missing_error (path : string) : string :=
  ("Missing required field: " ++ path)%string.

(** The checks of the validator, one by one. *)
Inductive check : Type :=
| Missing (path : string)
| WrongType (path : string) (t : pytype)
| PortRange
| HostBlank.

Definition is_none (v : pyval) : bool :=
  match v with PNone => true | _ => false end.

(** Whether a document violates a check, read off the document alone. *)
Definition violates (doc : pyval) (c : check) : bool :=
  match c with
  | Missing path => is_none (_dig doc path) && negb (String.eqb path "version")
  | WrongType path t =>
      negb (is_none (_dig doc path)) && negb (isinstance (_dig doc path) t)
  | PortRange => port_out_of_range (_dig doc "database.port")
  | HostBlank => host_blank (_dig doc "database.host")
  end.

Definition message (c : check) : string :=
  match c with
  | Missing path => missing_error path
  | WrongType path t => type_error path t
  | PortRange => "Invalid database.port: must be 1..65535"
  | HostBlank => "Invalid database.host: must be non-empty string"
  end.

(** All checks, in reporting order. *)
Definition checks : list check :=
  flat_map (fun f : string * pytype => [Missing (fst f); WrongType (fst f) (snd f)])
           REQUIRED_FIELDS
  ++ [PortRange; HostBlank].

(** A string made of whitespace only (the empty string included). *)
Fixpoint all_space (s : string) : bool :=
  match s with
  | EmptyString => true
  | String c rest => isspace c && all_space rest
  end.

(** [leaf s doc]: the string [s] is a value somewhere in [doc] (an
    element of a sequence or a value of a map, at any depth; never a
    key). *)
Inductive leaf (s : string) : pyval -> Prop :=
| leaf_here : leaf s (PStr s)
| leaf_item (items : list pyval) (x : pyval) :
    In x items -> leaf s x -> leaf s (PList items)
| leaf_value (items : list (string * pyval)) (k : string) (v : pyval) :
    In (k, v) items -> leaf s v -> leaf s (PDict items).




(** [marked s]: the string contains a template marker, that is an
    opening brace followed at once by a second brace or by a percent
    sign. *)
Fixpoint marked (s : string) : bool :=
  match s with
  | EmptyString => false
  | String c rest =>
      (Ascii.eqb c "{"
       && match rest with
          | String d _ => Ascii.eqb d "{" || Ascii.eqb d "%"
          | EmptyString => false
          end)
      || marked rest
  end.

(** No string leaf of the document carries a template marker. *)
Fixpoint no_tpl (doc : pyval) : bool :=
  match doc with
  | PStr s => negb (marked s)
  | PList items => forallb no_tpl items
  | PDict items =>
      forallb (fun kv : string * pyval => let '(_, v) := kv in no_tpl v) items
  | _ => true
  end.

Section Rendering.

Variable jinja_other : string -> pyval -> Jinja.outcome.
Variable context : pyval.

(** The exception a string leaf makes [_render] raise, if any. *)
Definition leaf_error (s : string) : option exn :=
  if marked s then
    match jinja_render jinja_other s context with
    | Rendered _ => None
    | TemplateError msg =>
        Some (ValueError ("Template render error: " ++ msg)%string)
    | Raised e => Some e
    end
  else None.

(** [rendered_as doc out]: [out] is [doc] with each string leaf that
    carries a template marker replaced by its evaluation under the
    context, and everything else as it is: same keys in the same order,
    same length and order of sequences, same scalars. *)
Unset Elimination Schemes.
Inductive rendered_as : pyval -> pyval -> Prop :=
| ra_none : rendered_as PNone PNone
| ra_bool (b : bool) : rendered_as (PBool b) (PBool b)
| ra_int (n : Z) : rendered_as (PInt n) (PInt n)
| ra_float (bits : Z) : rendered_as (PFloat bits) (PFloat bits)
| ra_plain (s : string) :
    marked s = false -> rendered_as (PStr s) (PStr s)
| ra_template (s text : string) :
    marked s = true -> jinja_render jinja_other s context = Rendered text ->
    rendered_as (PStr s) (PStr text)
| ra_list (items items' : list pyval) :
    Forall2 rendered_as items items' ->
    rendered_as (PList items) (PList items')
| ra_dict (items items' : list (string * pyval)) :
    Forall2 (fun kv kv' => fst kv = fst kv' /\ rendered_as (snd kv) (snd kv'))
            items items' ->
    rendered_as (PDict items) (PDict items').
Set Elimination Schemes.

End Rendering.

(** The rows of one service, in table order. *)
Definition service_rows (service : string) (st : Db.store) : list Db.row :=
  filter (Db.of_service service) (Db.rows st).



(** Rows with the given [(version, payload)] pairs written to the table
    for a service one after the other, each at its own store time. *)
Fixpoint insert_seq (service : string) (ins : list (Z * pyval * Z))
    (st : Db.store) : Db.store :=
  match ins with
  | [] => st
  | (v, d, now) :: rest =>
      insert_seq service rest (snd (Db.insert_row now service v d st))
  end.


(** The versions a service has in the store. *)
Definition versions (service : string) (st : Db.store) : list Z :=
  map Db.row_version (service_rows service st).

(** [no_rows service st]: the store holds no row of the service. *)
Definition no_rows (service : string) (st : Db.store) : Prop :=
  forall r, In r (Db.rows st) -> Db.row_service r <> service.

(** [greatest service st m]: [m] is the greatest version among the rows
    of the service. *)
Definition greatest (service : string) (st : Db.store) (m : Z) : Prop :=
  (exists r, In r (Db.rows st) /\ Db.row_service r = service
             /\ Db.row_version r = m)
  /\ forall r, In r (Db.rows st) -> Db.row_service r = service ->
               Db.row_version r <= m.

(** A string without U+0000. *)
Definition nul_free (s : string) : bool :=
  forallb (fun c => negb (Ascii.eqb c "000")) (list_ascii_of_string s).

(** A float that is a number: its exponent field, bits 52 to 62, is not
    all ones. *)
Definition finite (bits : Z) : bool :=
  negb ((bits / 2 ^ 52) mod 2048 =? 2047).

(** A document that has a JSON text the store converts: no integer too
    long to write, no float that is not a number, no U+0000 in a string
    or a key. *)
Fixpoint json_value (v : pyval) : bool :=
  match v with
  | PNone | PBool _ => true
  | PInt n => small_int n
  | PFloat bits => finite bits
  | PStr s => nul_free s
  | PList items => forallb json_value items
  | PDict items =>
      forallb (fun kv : string * pyval =>
                 let '(k, x) := kv in nul_free k && json_value x) items
  end.

(** [storable service version payload]: a row the store can hold: a
    service name without U+0000, a version that fits 32 bits and a
    payload that has a JSON text. *)
Definition storable (service : string) (version : Z) (payload : pyval) : bool :=
  nul_free service
  && (- 2 ^ 31 <=? version) && (version <? 2 ^ 31)
  && json_value payload.

(** The response of a successful submission. *)
Definition saved (service : string) (version : pyval) : response :=
  (200, PDict [("service", PStr service); ("version", version);
               ("status", PStr "saved")]).

(** The response to an exception no clause of [_handle_errors] names. *)
Definition internal_error : response :=
  (500, PDict [("error", PStr "internal server error")]).

(** What a submission has to satisfy to reach the version assignment:
    a non-empty body that parses to a map the validator accepts. *)
Definition accepted (safe_load : string -> loaded) (raw : string)
    (data : list (string * pyval)) : Prop :=
  raw <> EmptyString
  /\ safe_load raw = Loaded (PDict data)
  /\ validate_config_payload (PDict data) = [].

(** [payload_has_version service s v d]: an [insert_config] call for
    [service] whose version passed validation and whose payload is a map
    holding that version under [version]. *)
Definition payload_has_version (service : string) (s : string) (v d : pyval)
  : Prop :=
  s = service
  /\ isinstance v TInt = true
  /\ exists items, d = PDict items /\ dict_find "version" items = Some v.

(** Sample documents. *)
Definition doc_null_host : pyval :=
  PDict [("database", PDict [("host", PNone); ("port", PInt 80)])].
Definition database_ok : string * pyval :=
  ("database", PDict [("host", PStr "h"); ("port", PInt 80)]).
Definition doc_auto : list (string * pyval) := [database_ok].
Definition doc_v1 : list (string * pyval) := [("version", PInt 1); database_ok].

End Props.
Import Props.

(** ** Further notions *)

Module Derived.

(** The documents the validator lets through, read off the three fields:
    [version] is missing, [null], an [int] or a [bool]; [database.host]
    is a string with a character that is not whitespace;
    [database.port] is an [int] within 1..65535 or [True]. *)
Definition acceptable (doc : pyval) : Prop :=
  match _dig doc "version" with
  | PNone | PInt _ | PBool _ => True
  | _ => False
  end
  /\ (exists s, _dig doc "database.host" = PStr s /\ all_space s = false)
  /\ match _dig doc "database.port" with
     | PInt n => 1 <= n <= 65535
     | PBool b => b = true
     | _ => False
     end.

(** The string leaves of a document in the order [_render] visits them. *)
Fixpoint leaves (doc : pyval) : list string :=
  match doc with
  | PStr s => [s]
  | PList items => flat_map leaves items
  | PDict items =>
      flat_map (fun kv : string * pyval => let '(_, v) := kv in leaves v) items
  | _ => []
  end.

(** The first exception a list of leaves gives rise to. *)
Fixpoint first_error (jinja_other : string -> pyval -> Jinja.outcome)
    (context : pyval) (l : list string) : option exn :=
  match l with
  | [] => None
  | s :: rest =>
      match leaf_error jinja_other context s with
      | Some e => Some e
      | None => first_error jinja_other context rest
      end
  end.

(** No two rows of the store have the same service and version. *)
Definition unique_versions (st : Db.store) : Prop :=
  NoDup (map (fun r => (Db.row_service r, Db.row_version r)) (Db.rows st)).

(** [counted_from service st base]: the number the versions of the
    service have reached: its greatest version, 0 when it has no rows. *)
Definition counted_from (service : string) (st : Db.store) (base : Z) : Prop :=
  (no_rows service st /\ base = 0) \/ greatest service st base.

(** Submissions served one after the other; [reqs] gives the body and
    the store time of each. *)
Fixpoint submit_all (safe_load : string -> loaded) (to_char : Z -> string)
    (service : string) (reqs : list (string * Z)) (st : Db.store)
  : list (result response) * Db.store :=
  match reqs with
  | [] => ([], st)
  | (raw, now) :: rest =>
      let '(r, st1) := run to_char now (post_config safe_load raw service) st in
      let '(rs, st2) := submit_all safe_load to_char service rest st1 in
      (r :: rs, st2)
  end.

(** [first + 0, first + 1, ..., first + (n - 1)] *)
Definition consecutive (first : Z) (n : nat) : list Z :=
  map (fun k => first + Z.of_nat k) (seq 0 n).

(** A program that has finished without a store call. *)
Definition finished {A} (p : io A) (r : result A) : Prop := p = Done r.

End Derived.
Import Derived.

(** * Properties *)

(** ** The repository's own tests ([tests/test_validation.py]) *)

Example test_ok :
  validate_config_payload
    (PDict [("version", PInt 1);
            ("database", PDict [("host", PStr "db"); ("port", PInt 5432)])])
  = [].
Proof. reflexivity. Qed.

Example test_missing :
  In "Missing required field: database.host"
     (validate_config_payload
        (PDict [("database", PDict [("port", PInt 5432)])])).
Proof. vm_compute. auto. Qed.


(** ** Validator *)

Section ValidatorFacts.

Lemma dig_parts_resolve (parts : list string) : forall cur,
  dig_parts cur parts
  = match resolve cur parts with Some v => v | None => PNone end.
Proof.
  induction parts as [|part rest IH]; intros cur; simpl; [reflexivity|].
  destruct cur; try reflexivity.
  destruct (dict_find part items); [apply IH | reflexivity].
Qed.

Lemma dig_present (doc : pyval) (path : string) (v : pyval) :
  present doc path v -> _dig doc path = v.
Proof.
  unfold present, _dig. intros H. now rewrite dig_parts_resolve, H.
Qed.

Lemma dig_absent (doc : pyval) (path : string) :
  absent doc path -> _dig doc path = PNone.
Proof.
  unfold absent, _dig. intros H. now rewrite dig_parts_resolve, H.
Qed.

(** One turn of the loop reports exactly the violated checks of its field. *)
Lemma check_field_checks (doc : pyval) (path : string) (t : pytype) :
  check_field doc (path, t)
  = map message (filter (violates doc) [Missing path; WrongType path t]).
Proof.
  unfold check_field. cbn [filter violates].
  destruct (_dig doc path) eqn:E; cbn [is_none negb andb];
    destruct (negb (String.eqb path "version")); cbn [map message];
    try reflexivity;
    match goal with
    | |- context [isinstance ?v t] => destruct (isinstance v t); reflexivity
    end.
Qed.

Lemma fields_checks (doc : pyval) (fs : list (string * pytype)) :
  flat_map (check_field doc) fs
  = map message
      (filter (violates doc)
         (flat_map (fun f : string * pytype =>
                      [Missing (fst f); WrongType (fst f) (snd f)]) fs)).
Proof.
  induction fs as [|[path t] fs IH]; [reflexivity|].
  cbn [flat_map fst snd]. rewrite filter_app, map_app, <- IH.
  now rewrite check_field_checks.
Qed.

(** The validator evaluates every check on the document itself and
    reports all violated ones, in the order of [checks]. *)
Lemma validate_checks (doc : pyval) :
  validate_config_payload doc = map message (filter (violates doc) checks).
Proof.
  unfold validate_config_payload, checks.
  rewrite filter_app, map_app, <- fields_checks.
  cbn [filter violates].
  destruct (port_out_of_range (_dig doc "database.port"));
    destruct (host_blank (_dig doc "database.host"));
    cbn [map message app]; rewrite <- ?app_assoc, ?app_nil_r; reflexivity.
Qed.

Lemma violated_reported (doc : pyval) (c : check) :
  In c checks -> violates doc c = true ->
  In (message c) (validate_config_payload doc).
Proof.
  intros Hc Hv. rewrite validate_checks.
  apply in_map, filter_In. now split.
Qed.

Lemma reported_violated (doc : pyval) (e : string) :
  In e (validate_config_payload doc) ->
  exists c, In c checks /\ violates doc c = true /\ message c = e.
Proof.
  rewrite validate_checks. intros H.
  apply in_map_iff in H as [c [Hm Hf]].
  apply filter_In in Hf as [Hc Hv]. now exists c.
Qed.

Lemma lstrip_all_space (s : string) :
  all_space s = true -> lstrip s = EmptyString.
Proof.
  induction s as [|c s IH]; simpl; [reflexivity|].
  intros H. apply andb_prop in H as [Hc Hs]. rewrite Hc. auto.
Qed.

Lemma strip_all_space (s : string) :
  all_space s = true -> strip s = EmptyString.
Proof.
  intros H. unfold strip. now rewrite lstrip_all_space.
Qed.

Lemma rstrip_empty (s : string) :
  rstrip s = EmptyString -> all_space s = true.
Proof.
  induction s as [|c s IH]; simpl; [reflexivity|].
  destruct (rstrip s) eqn:E; [|discriminate].
  destruct (isspace c); [intros _; now rewrite IH | discriminate].
Qed.

Lemma lstrip_suffix_space (s : string) :
  all_space (lstrip s) = true -> all_space s = true.
Proof.
  induction s as [|c s IH]; simpl; [reflexivity|].
  destruct (isspace c) eqn:E; simpl; [exact IH|].
  rewrite E. discriminate.
Qed.

(** [not host.strip()] holds exactly for the whitespace-only strings. *)
Lemma strip_empty_iff (s : string) :
  strip s = EmptyString <-> all_space s = true.
Proof.
  split; [|apply strip_all_space].
  unfold strip. intros H. apply lstrip_suffix_space, rstrip_empty, H.
Qed.

End ValidatorFacts.

Ltac in_list := cbn; repeat (first [left; reflexivity | right]).

(** The claim of C5 as it is written fails: a field whose value is
    [null] is present with a value that is neither an [int] nor a [str],
    yet [_dig] hands back [None] for it as for a missing field, and the
    validator reports [database.host: null] as a missing field, not as
    one of the wrong type. *)
Lemma validate_type_check_null_counterexample :
  present doc_null_host "database.host" PNone
  /\ isinstance PNone TStr = false
  /\ validate_config_payload doc_null_host
     = ["Missing required field: database.host"]
  /\ ~ In (type_error "database.host" TStr) (validate_config_payload doc_null_host)
  /\ ~ (forall (d : pyval) (path : string) (t : pytype) (v : pyval),
          In (path, t) REQUIRED_FIELDS -> present d path v ->
          isinstance v t = false ->
          In (type_error path t) (validate_config_payload d)).
Proof.
  assert (Hno : ~ In (type_error "database.host" TStr)
                     (validate_config_payload doc_null_host))
    by (cbn; intros [H | []]; discriminate H).
  split; [reflexivity|]. split; [reflexivity|]. split; [reflexivity|].
  split; [exact Hno|].
  intros H. apply Hno.
  apply (H doc_null_host "database.host" TStr PNone);
    [in_list | reflexivity | reflexivity].
Qed.

(** C5, amended: a field of [REQUIRED_FIELDS] that is present with a
    value other than [null] and of the wrong type is reported as
    [Invalid type for <path>: expected <type>]; an absent [version]
    gives neither a missing-field nor a type error; a [database.host] or
    [database.port] that is present with the value [null] is reported as
    a missing field and not as one of the wrong type; and the document
    with [version: "x"] is reported. *)
Theorem validate_type_check :
  (forall (doc : pyval) (path : string) (t : pytype) (v : pyval),
      In (path, t) REQUIRED_FIELDS -> present doc path v ->
      v <> PNone -> isinstance v t = false ->
      In (type_error path t) (validate_config_payload doc))
  /\ (forall doc : pyval,
        absent doc "version" ->
        ~ In (missing_error "version") (validate_config_payload doc)
        /\ ~ In (type_error "version" TInt) (validate_config_payload doc))
  /\ (forall (doc : pyval) (path : string) (t : pytype),
        In (path, t) REQUIRED_FIELDS -> path <> "version" ->
        present doc path PNone ->
        In (missing_error path) (validate_config_payload doc)
        /\ ~ In (type_error path t) (validate_config_payload doc))
  /\ In "Invalid type for version: expected int"
        (validate_config_payload
           (PDict [("version", PStr "x");
                   ("database", PDict [("host", PStr "h"); ("port", PInt 80)])])).
Proof.
  assert (Hnone : forall doc path t,
             In (path, t) REQUIRED_FIELDS -> _dig doc path = PNone ->
             ~ In (type_error path t) (validate_config_payload doc)).
  { intros doc path t Hf Hd Hin.
    apply reported_violated in Hin as [c [Hc [Hviol Hm]]].
    cbn in Hf. cbn in Hc.
    repeat (destruct Hf as [Hf | Hf]; [injection Hf as <- <-|]);
      try contradiction;
      repeat (destruct Hc as [<- | Hc]; [cbn in Hm; try discriminate Hm|]);
      try contradiction;
      cbn [violates] in Hviol; rewrite ?Hd in Hviol; discriminate Hviol. }
  split; [|split; [|split]].
  - intros doc path t v Hf Hp Hn Ht.
    apply (violated_reported doc (WrongType path t)).
    + unfold checks. apply in_or_app. left.
      apply in_flat_map. exists (path, t). split; [exact Hf | in_list].
    + cbn [violates]. rewrite (dig_present _ _ _ Hp), Ht.
      destruct v; try reflexivity. now elim Hn.
  - intros doc Hv. pose proof (dig_absent _ _ Hv) as Hd.
    split; [|apply Hnone; [in_list | exact Hd]].
    intros Hin. apply reported_violated in Hin as [c [Hc [Hviol Hm]]].
    cbn in Hc.
    repeat (destruct Hc as [<- | Hc]; [cbn in Hm; try discriminate Hm|]);
      try contradiction.
    cbn [violates] in Hviol. rewrite Hd in Hviol. discriminate Hviol.
  - intros doc path t Hf Hne Hp. pose proof (dig_present _ _ _ Hp) as Hd.
    split; [|now apply Hnone].
    apply (violated_reported doc (Missing path)).
    + unfold checks. apply in_or_app. left.
      apply in_flat_map. exists (path, t). split; [exact Hf | in_list].
    + cbn [violates]. rewrite Hd. cbn [is_none andb].
      destruct (String.eqb_spec path "version"); [contradiction | reflexivity].
  - in_list.
Qed.

Lemma validate_type_check_witness :
  In "Invalid type for database.port: expected int"
     (validate_config_payload
        (PDict [("database", PDict [("host", PStr "h"); ("port", PStr "80")])]))
  /\ (~ In (missing_error "version") (validate_config_payload (PDict []))
      /\ ~ In (type_error "version" TInt) (validate_config_payload (PDict [])))
  /\ (In (missing_error "database.port")
         (validate_config_payload
            (PDict [("database", PDict [("host", PStr "h"); ("port", PNone)])]))
      /\ ~ In (type_error "database.port" TInt)
             (validate_config_payload
                (PDict [("database", PDict [("host", PStr "h"); ("port", PNone)])]))).
Proof.
  split; [|split].
  - apply (proj1 validate_type_check
             (PDict [("database", PDict [("host", PStr "h"); ("port", PStr "80")])])
             "database.port" TInt (PStr "80")).
    + in_list.
    + reflexivity.
    + discriminate.
    + reflexivity.
  - apply (proj1 (proj2 validate_type_check) (PDict [])). reflexivity.
  - apply (proj1 (proj2 (proj2 validate_type_check))
             (PDict [("database", PDict [("host", PStr "h"); ("port", PNone)])])
             "database.port" TInt).
    + in_list.
    + discriminate.
    + reflexivity.
Defined.

(** C6: for the empty map the validator returns both missing-field
    errors for [database.host] and [database.port] and no error about
    [version]; and in general every check is decided on the document
    alone, so the result lists every violated check, not the first. *)
Theorem validate_reports_all :
  validate_config_payload (PDict [])
  = [ "Missing required field: database.host";
      "Missing required field: database.port" ]
  /\ ~ In "Missing required field: version" (validate_config_payload (PDict []))
  /\ (forall doc : pyval,
        validate_config_payload doc = map message (filter (violates doc) checks))
  /\ (forall (doc : pyval) (c : check),
        In c checks -> violates doc c = true ->
        In (message c) (validate_config_payload doc)).
Proof.
  split; [reflexivity|]. split; [|split].
  - cbn. intros [H | [H | []]]; discriminate H.
  - apply validate_checks.
  - apply violated_reported.
Qed.

Lemma validate_reports_all_witness :
  let doc := PDict [("version", PStr "x");
                    ("database", PDict [("host", PStr "  "); ("port", PInt 0)])] in
  In "Invalid type for version: expected int" (validate_config_payload doc)
  /\ In "Invalid database.port: must be 1..65535" (validate_config_payload doc)
  /\ In "Invalid database.host: must be non-empty string"
        (validate_config_payload doc).
Proof.
  cbv zeta.
  pose proof (proj2 (proj2 (proj2 validate_reports_all))) as H.
  repeat split.
  - apply (H _ (WrongType "version" TInt)); [in_list | reflexivity].
  - apply (H _ PortRange); [in_list | reflexivity].
  - apply (H _ HostBlank); [in_list | reflexivity].
Defined.

(** C7: whatever the type pass reports, a [database.port] that is an
    integer outside 1..65535 is reported as
    [Invalid database.port: must be 1..65535], and a [database.host] that
    is an empty or whitespace-only string as
    [Invalid database.host: must be non-empty string]; port 99999 is an
    instance. *)
Theorem validate_semantic_checks :
  (forall (doc : pyval) (n : Z),
      present doc "database.port" (PInt n) -> n < 1 \/ 65535 < n ->
      In "Invalid database.port: must be 1..65535" (validate_config_payload doc))
  /\ (forall (doc : pyval) (s : string),
        present doc "database.host" (PStr s) -> all_space s = true ->
        In "Invalid database.host: must be non-empty string"
           (validate_config_payload doc))
  /\ In "Invalid database.port: must be 1..65535"
        (validate_config_payload
           (PDict [("database", PDict [("host", PStr "h"); ("port", PInt 99999)])])).
Proof.
  split; [|split].
  - intros doc n Hp Hr.
    apply (violated_reported doc PortRange); [in_list|].
    cbn [violates]. rewrite (dig_present _ _ _ Hp). cbn.
    destruct (Z.leb_spec 1 n); destruct (Z.leb_spec n 65535); try reflexivity; lia.
  - intros doc s Hp Hs.
    apply (violated_reported doc HostBlank); [in_list|].
    cbn [violates]. rewrite (dig_present _ _ _ Hp). cbn.
    now rewrite (strip_all_space s Hs).
  - in_list.
Qed.

Lemma validate_semantic_checks_witness :
  In "Invalid database.port: must be 1..65535"
     (validate_config_payload
        (PDict [("database", PDict [("host", PStr "h"); ("port", PInt 0)])]))
  /\ In "Invalid database.host: must be non-empty string"
        (validate_config_payload
           (PDict [("database", PDict [("host", PStr " "); ("port", PInt 80)])])).
Proof.
  split.
  - apply (proj1 validate_semantic_checks _ 0); [reflexivity | lia].
  - apply (proj1 (proj2 validate_semantic_checks) _ " "); reflexivity.
Defined.

(** C10: [bool] being a subclass of [int], the validator takes a boolean
    where an integer is expected: for [version: true] and [port: true]
    it returns no error, the range check included ([True == 1]). *)
Theorem validate_accepts_bool :
  validate_config_payload
    (PDict [("version", PBool true);
            ("database", PDict [("host", PStr "h"); ("port", PBool true)])])
  = []
  /\ (forall b : bool, isinstance (PBool b) TInt = true)
  /\ port_out_of_range (PBool true) = false.
Proof.
  split; [reflexivity|]. split; [intros b|]; reflexivity.
Qed.

(** ** Template rendering *)

Section Markers.

Lemma prefix_empty (s : string) : String.prefix EmptyString s = true.
Proof. destruct s; reflexivity. Qed.

Lemma prefix_cons (a b : ascii) (s1 s2 : string) :
  String.prefix (String a s1) (String b s2) = Ascii.eqb a b && String.prefix s1 s2.
Proof.
  simpl. destruct (ascii_dec a b) as [->|Hne].
  - now rewrite Ascii.eqb_refl.
  - apply Ascii.eqb_neq in Hne. now rewrite Hne.
Qed.

Lemma prefix_two (a b : ascii) (s : string) :
  String.prefix (String a (String b EmptyString)) s
  = match s with
    | String c (String d _) => Ascii.eqb a c && Ascii.eqb b d
    | _ => false
    end.
Proof.
  destruct s as [|c [|d r]]; try reflexivity.
  - rewrite prefix_cons. simpl. apply andb_false_r.
  - now rewrite !prefix_cons, prefix_empty, andb_true_r.
Qed.

(** The test of [_render] finds exactly the marked strings. *)
Lemma has_tpl_marked (s : string) : has_tpl s = marked s.
Proof.
  unfold has_tpl. induction s as [|c rest IH]; [reflexivity|].
  change (contains "{{" (String c rest))
    with (String.prefix "{{" (String c rest) || contains "{{" rest).
  change (contains "{%" (String c rest))
    with (String.prefix "{%" (String c rest) || contains "{%" rest).
  rewrite !prefix_two. cbn [marked]. rewrite <- IH.
  rewrite (Ascii.eqb_sym c "{").
  destruct rest as [|d r].
  - now rewrite andb_false_r.
  - rewrite (Ascii.eqb_sym d "{"), (Ascii.eqb_sym d "%").
    destruct (Ascii.eqb "{" c), (Ascii.eqb "{" d), (Ascii.eqb "%" d),
      (contains "{{" (String d r)), (contains "{%" (String d r)); reflexivity.
Qed.

(** A string is marked exactly when ["{{"] or ["{%"] occurs in it. *)
Lemma marked_occurs (s : string) :
  marked s = true
  <-> exists pre post,
        s = (pre ++ "{{" ++ post)%string \/ s = (pre ++ "{%" ++ post)%string.
Proof.
  induction s as [|c rest IH]; split.
  - discriminate.
  - intros (pre & post & [H | H]); destruct pre; discriminate H.
  - cbn [marked]. intros H. apply orb_prop in H as [H | H].
    + apply andb_prop in H as [Hc Hd]. apply Ascii.eqb_eq in Hc. subst c.
      destruct rest as [|d r]; [discriminate|].
      apply orb_prop in Hd as [Hd | Hd]; apply Ascii.eqb_eq in Hd; subst d;
        exists EmptyString, r; [left | right]; reflexivity.
    + apply IH in H as (pre & post & [H | H]); exists (String c pre), post;
        [left | right]; simpl; now rewrite H.
  - intros (pre & post & H). cbn [marked]. destruct pre as [|p pre].
    + destruct H as [H | H]; simpl in H; injection H as -> ->; reflexivity.
    + apply orb_true_intro. right. apply IH. exists pre, post.
      destruct H as [H | H]; simpl in H; injection H as _ ->; auto.
Qed.

End Markers.

Section TraverseFacts.

Context {A B : Type} (f : A -> result B).

Lemma traverse_return (l : list A) : forall l',
  traverse f l = Return l' -> Forall2 (fun x y => f x = Return y) l l'.
Proof.
  induction l as [|x t IH]; intros l' H; simpl in H.
  - injection H as <-. constructor.
  - destruct (f x) as [y|e] eqn:Ex; [|discriminate].
    destruct (traverse f t) as [t'|e] eqn:Et; [|discriminate].
    injection H as <-. constructor; auto.
Qed.

Lemma traverse_raise (l : list A) (e : exn) :
  traverse f l = Raise e -> exists x, In x l /\ f x = Raise e.
Proof.
  induction l as [|x t IH]; simpl; [discriminate|].
  destruct (f x) as [y|e'] eqn:Ex.
  - destruct (traverse f t) as [t'|e'] eqn:Et; [discriminate|].
    intros H. injection H as ->.
    destruct IH as [x' [Hin Hx']]; [reflexivity|]. exists x'. auto.
  - intros H. injection H as ->. exists x. auto.
Qed.

(** One failing element is enough for the comprehension to fail. *)
Lemma traverse_In_raise (l : list A) (x : A) (e : exn) :
  In x l -> f x = Raise e -> exists e', traverse f l = Raise e'.
Proof.
  induction l as [|y t IH]; simpl; [contradiction|].
  intros [-> | Hin] Hx.
  - rewrite Hx. eauto.
  - destruct (f y) as [y'|e1]; [|eauto].
    destruct (IH Hin Hx) as [e' ->]. eauto.
Qed.

End TraverseFacts.

Lemma traverse_same {A : Type} (f : A -> result A) (l : list A) :
  Forall (fun x => f x = Return x) l -> traverse f l = Return l.
Proof.
  induction 1 as [|x t Hx _ IH]; simpl; [reflexivity|].
  now rewrite Hx, IH.
Qed.

Section RenderFacts.

Variable jinja_other : string -> pyval -> Jinja.outcome.
Variable context : pyval.

Let render := fun doc => _render jinja_other doc context.

Let render_item := fun kv : string * pyval =>
  let '(k, v) := kv in
  match render v with
  | Raise e => Raise e
  | Return v' => Return (k, v')
  end.

Lemma render_str (s : string) :
  render (PStr s)
  = match leaf_error jinja_other context s with
    | Some e => Raise e
    | None =>
        if marked s then
          match jinja_render jinja_other s context with
          | Rendered text => Return (PStr text)
          | _ => Return (PStr s)
          end
        else Return (PStr s)
    end.
Proof.
  unfold render, leaf_error. simpl. rewrite has_tpl_marked.
  destruct (marked s); [|reflexivity].
  destruct (jinja_render jinja_other s context); reflexivity.
Qed.

Lemma render_list (items : list pyval) :
  render (PList items)
  = match traverse render items with
    | Raise e => Raise e
    | Return items' => Return (PList items')
    end.
Proof. reflexivity. Qed.

Lemma render_dict (items : list (string * pyval)) :
  render (PDict items)
  = match traverse render_item items with
    | Raise e => Raise e
    | Return items' => Return (PDict items')
    end.
Proof. reflexivity. Qed.

(** A successful render is the leaf-wise substitution of the input. *)
Lemma render_sound (doc : pyval) : forall out,
  render doc = Return out -> rendered_as jinja_other context doc out.
Proof.
  induction doc as [| b | n | bits | s | items IH | items IH]
    using pyval_induction;
    intros out H;
    try (injection H as <-; constructor).
  - unfold render in H. simpl in H. rewrite has_tpl_marked in H.
    destruct (marked s) eqn:Et.
    + destruct (jinja_render jinja_other s context) eqn:Ej; try discriminate.
      injection H as <-. now apply ra_template.
    + injection H as <-. now apply ra_plain.
  - rewrite render_list in H.
    destruct (traverse render items) as [items'|e] eqn:Et; [|discriminate].
    injection H as <-. apply ra_list.
    apply traverse_return in Et.
    induction Et as [|x y t t' Hx _ IHt]; constructor.
    + apply Forall_inv in IH. auto.
    + apply Forall_inv_tail in IH. auto.
  - rewrite render_dict in H.
    destruct (traverse render_item items) as [items'|e] eqn:Et; [|discriminate].
    injection H as <-. apply ra_dict.
    apply traverse_return in Et.
    induction Et as [|[k v] [k' v'] t t' Hx _ IHt]; constructor.
    + apply Forall_inv in IH. simpl in *.
      destruct (render v) as [w|e] eqn:Ev; [|discriminate].
      injection Hx as <- <-. auto.
    + apply Forall_inv_tail in IH. auto.
Qed.

(** An exception leaving [_render] is the one of a string leaf. *)
Lemma render_raise_leaf (doc : pyval) : forall e,
  render doc = Raise e ->
  exists s, leaf s doc /\ leaf_error jinja_other context s = Some e.
Proof.
  induction doc as [| b | n | bits | s | items IH | items IH]
    using pyval_induction;
    intros e H;
    try discriminate H.
  - rewrite render_str in H.
    destruct (leaf_error jinja_other context s) as [e'|] eqn:El.
    + injection H as <-. exists s. split; [constructor | exact El].
    + destruct (marked s); [|discriminate].
      destruct (jinja_render jinja_other s context); discriminate.
  - rewrite render_list in H.
    destruct (traverse render items) as [items'|e'] eqn:Et; [discriminate|].
    injection H as ->.
    apply traverse_raise in Et as [x [Hin Hx]].
    rewrite Forall_forall in IH.
    destruct (IH x Hin e Hx) as [s [Hl He]].
    exists s. split; [now apply leaf_item with x | exact He].
  - rewrite render_dict in H.
    destruct (traverse render_item items) as [items'|e'] eqn:Et; [discriminate|].
    injection H as ->.
    apply traverse_raise in Et as [[k v] [Hin Hx]].
    rewrite Forall_forall in IH. simpl in Hx.
    destruct (render v) as [w|e'] eqn:Ev; [discriminate|].
    injection Hx as ->.
    destruct (IH (k, v) Hin e Ev) as [s [Hl He]].
    exists s. split; [now apply leaf_value with k v | exact He].
Qed.

(** A failing string leaf anywhere makes the whole render fail. *)
Lemma render_leaf_fails (doc : pyval) : forall s e,
  leaf s doc -> leaf_error jinja_other context s = Some e ->
  exists e', render doc = Raise e'.
Proof.
  induction doc as [| b | n | bits | s0 | items IH | items IH]
    using pyval_induction;
    intros s e Hl He; inversion Hl; subst.
  - rewrite render_str, He. eauto.
  - rewrite Forall_forall in IH.
    destruct (IH x H0 s e H1 He) as [e1 Hx].
    rewrite render_list.
    destruct (traverse_In_raise render items x e1 H0 Hx) as [e' ->]. eauto.
  - rewrite Forall_forall in IH.
    destruct (IH (k, v) H0 s e H1 He) as [e1 Hx].
    rewrite render_dict.
    simpl in Hx.
    assert (Hi : render_item (k, v) = Raise e1)
      by (unfold render_item; now rewrite Hx).
    destruct (traverse_In_raise render_item items (k, v) e1 H0 Hi) as [e' ->].
    eauto.
Qed.

(** A document without markers is returned as it is. *)
Lemma render_no_tpl (doc : pyval) :
  no_tpl doc = true -> render doc = Return doc.
Proof.
  induction doc as [| b | n | bits | s | items IH | items IH]
    using pyval_induction;
    intros H;
    try reflexivity.
  - unfold render. simpl in *. apply negb_true_iff in H.
    now rewrite has_tpl_marked, H.
  - rewrite render_list, traverse_same; [reflexivity|].
    simpl in H. rewrite forallb_forall in H. rewrite Forall_forall in *.
    auto.
  - rewrite render_dict, traverse_same; [reflexivity|].
    simpl in H. rewrite forallb_forall in H. rewrite Forall_forall in *.
    intros [k v] Hin. specialize (H _ Hin). specialize (IH _ Hin).
    simpl in *. now rewrite (IH H).
Qed.

End RenderFacts.

Lemma rendered_as_dict_keys other ctx (items : list (string * pyval)) (out : pyval) :
  rendered_as other ctx (PDict items) out ->
  exists items', out = PDict items' /\ map fst items' = map fst items.
Proof.
  intros H. inversion H as [| | | | | | |? items' HF]; subst.
  exists items'. split; [reflexivity|]. clear H.
  induction HF as [|kv kv' t t' [Hk _] _ IH]; simpl; [reflexivity|].
  now rewrite <- Hk, IH.
Qed.

Lemma rendered_as_list_length other ctx (items : list pyval) (out : pyval) :
  rendered_as other ctx (PList items) out ->
  exists items', out = PList items' /\ length items' = length items
                 /\ Forall2 (rendered_as other ctx) items items'.
Proof.
  intros H. inversion H as [| | | | | |? items' HF|]; subst.
  exists items'. repeat split; [|exact HF].
  symmetry. eapply Forall2_length, HF.
Qed.

Lemma rendered_as_scalar other ctx (doc out : pyval) :
  rendered_as other ctx doc out ->
  match doc with
  | PNone | PBool _ | PInt _ | PFloat _ => out = doc
  | _ => True
  end.
Proof. intros H. inversion H; subst; auto. Qed.






(** C4: when rendering succeeds, the result is the input with each
    string leaf that carries a marker (["{{"] or ["{%"] somewhere in it)
    replaced by its evaluation and everything else unchanged: maps keep
    their keys, sequences their length and order, other scalars and
    strings without a marker their value; a document without markers
    renders to itself under any context; and the two documents of the
    spec render as stated. *)
Theorem render_structure :
  forall (jinja_other : string -> pyval -> Jinja.outcome) (doc context : pyval),
    (forall out, _render jinja_other doc context = Return out ->
                 rendered_as jinja_other context doc out)
    /\ (forall out, render_config jinja_other doc context = Return out ->
                    rendered_as jinja_other context doc out)
    /\ (forall items out,
          rendered_as jinja_other context (PDict items) out ->
          exists items', out = PDict items' /\ map fst items' = map fst items)
    /\ (forall items out,
          rendered_as jinja_other context (PList items) out ->
          exists items', out = PList items' /\ length items' = length items
                         /\ Forall2 (rendered_as jinja_other context) items items')
    /\ (forall d out,
          rendered_as jinja_other context d out ->
          match d with
          | PNone | PBool _ | PInt _ | PFloat _ => out = d
          | _ => True
          end)
    /\ (no_tpl doc = true -> _render jinja_other doc context = Return doc)
    /\ (forall s : string,
          marked s = true
          <-> exists pre post,
                s = (pre ++ "{{" ++ post)%string \/ s = (pre ++ "{%" ++ post)%string)
    /\ (forall s : string,
          marked s = false -> _render jinja_other (PStr s) context = Return (PStr s))
    /\ (forall s text : string,
          marked s = true ->
          jinja_render jinja_other s context = Rendered text ->
          _render jinja_other (PStr s) context = Return (PStr text))
    /\ render_config jinja_other
         (PDict [("a", PInt 1); ("b", PList [PBool true; PNone])]) context
       = Return (PDict [("a", PInt 1); ("b", PList [PBool true; PNone])])
    /\ render_config jinja_other
         (PDict [("url", PStr "http://{{host}}:{{port}}")])
         (PDict [("host", PStr "x"); ("port", PInt 1)])
       = Return (PDict [("url", PStr "http://x:1")]).
Proof.
  intros other doc ctx.
  split; [apply render_sound|].
  split.
  { intros out H. unfold render_config in H.
    destruct (_render other doc ctx) as [r|e] eqn:Er; [|discriminate].
    destruct r; try discriminate. injection H as <-.
    now apply render_sound. }
  split; [apply rendered_as_dict_keys|].
  split; [apply rendered_as_list_length|].
  split; [apply rendered_as_scalar|].
  split; [apply render_no_tpl|].
  split; [apply marked_occurs|].
  split.
  { intros s Hs. rewrite render_str. unfold leaf_error. now rewrite Hs. }
  split.
  { intros s text Hs Hj. rewrite render_str. unfold leaf_error. now rewrite Hs, Hj. }
  split; reflexivity.
Qed.

Lemma render_structure_witness :
  let other := fun (_ : string) (_ : pyval) => Rendered "other" in
  let doc := PDict [("n", PInt 3); ("l", PList [PStr "{{ a }}-{{b}}"; PStr "plain"])] in
  let context := PDict [("a", PStr "x"); ("b", PInt 7)] in
  _render other doc context
  = Return (PDict [("n", PInt 3); ("l", PList [PStr "x-7"; PStr "plain"])])
  /\ rendered_as other context doc
       (PDict [("n", PInt 3); ("l", PList [PStr "x-7"; PStr "plain"])])
  /\ _render other (PDict [("k{{a}}", PFloat 0); ("v", PStr "{ {a} } %}")]) context
     = Return (PDict [("k{{a}}", PFloat 0); ("v", PStr "{ {a} } %}")])
  /\ _render other (PStr "{% if a %}yes{% endif %}") context = Return (PStr "other").
Proof.
  cbv zeta. split; [reflexivity|]. split; [|split].
  - apply (proj1 (render_structure (fun _ _ => Rendered "other")
                    (PDict [("n", PInt 3);
                            ("l", PList [PStr "{{ a }}-{{b}}"; PStr "plain"])])
                    (PDict [("a", PStr "x"); ("b", PInt 7)]))).
    reflexivity.
  - apply (render_structure (fun _ _ => Rendered "other")
             (PDict [("k{{a}}", PFloat 0); ("v", PStr "{ {a} } %}")])
             (PDict [("a", PStr "x"); ("b", PInt 7)])).
    reflexivity.
  - apply (render_structure (fun _ _ => Rendered "other") PNone
             (PDict [("a", PStr "x"); ("b", PInt 7)])).
    + reflexivity.
    + reflexivity.
Defined.

(** ** History *)

Section HistoryFacts.

Import Db.










Lemma has_version_rows (service : string) (v : Z) (st : store) :
  has_version service v st
  = existsb (fun r => row_version r =? v) (service_rows service st).
Proof.
  unfold has_version, service_rows.
  induction (rows st) as [|r t IH]; simpl; [reflexivity|].
  destruct (of_service service r); simpl; now rewrite IH.
Qed.

(** The table takes a row with a version the service does not have
    yet. *)
Lemma insert_row_fresh (now : Z) (service : string) (v : Z) (d : pyval)
    (st : store) :
  ~ In v (map row_version (service_rows service st)) ->
  insert_row now service v d st
  = (Return (next_id st),
     mk_store (rows st ++ [mk_row (next_id st) service v d now]) (next_id st + 1)).
Proof.
  intros Hn. unfold insert_row.
  rewrite has_version_rows.
  destruct (existsb _ _) eqn:E; [|reflexivity].
  apply existsb_exists in E as [r [Hin Hv]].
  apply Z.eqb_eq in Hv. elim Hn. apply in_map_iff. now exists r.
Qed.

(** An insert with a version the service does not have yet appends the
    row, unless its values are refused. *)
Lemma insert_config_fresh (now : Z) (service : string) (v : Z) (d : pyval)
    (st : store) :
  ~ In v (map row_version (service_rows service st)) ->
  refused service v d = None ->
  insert_config now service (PInt v) d st
  = (Return (next_id st),
     mk_store (rows st ++ [mk_row (next_id st) service v d now]) (next_id st + 1)).
Proof.
  intros Hn Hr. unfold insert_config. cbn [column_value].
  now rewrite (insert_row_fresh now service v d st Hn), Hr.
Qed.

(** A failed insert leaves the store as it was; a successful one appends
    one row, of the service and payload of the call and of the version
    the column received. *)
Lemma insert_config_cases (now : Z) (service : string) (version payload : pyval)
    (st : store) :
  (exists e, insert_config now service version payload st = (Raise e, st))
  \/ (exists n,
        column_value version = Return n
        /\ refused service n payload = None
        /\ has_version service n st = false
        /\ insert_config now service version payload st
           = (Return (next_id st),
              mk_store (rows st ++ [mk_row (next_id st) service n payload now])
                       (next_id st + 1))).
Proof.
  unfold insert_config, insert_row.
  destruct (column_value version) as [n|e]; [|left; eauto].
  destruct (has_version service n st) eqn:Eh; [left; eauto|].
  destruct (refused service n payload) eqn:Er; [left; eauto|].
  right. exists n. auto.
Qed.



End HistoryFacts.




(** ** Submission *)

Section SubmissionFacts.

Import Db.

Lemma sql_max_nil (l : list Z) : sql_max l = None <-> l = [].
Proof.
  destruct l as [|x t]; simpl; [tauto|].
  destruct (sql_max t); split; discriminate.
Qed.

Lemma sql_max_greatest (l : list Z) (m : Z) :
  sql_max l = Some m -> In m l /\ Forall (fun x => x <= m) l.
Proof.
  revert m. induction l as [|x t IH]; simpl; [discriminate|].
  intros m. destruct (sql_max t) as [m'|] eqn:E.
  - intros H. injection H as <-. destruct (IH m' eq_refl) as [Hin Hle].
    split.
    + destruct (Z.max_spec x m') as [[_ ->] | [_ ->]]; auto.
    + constructor; [lia|]. eapply Forall_impl; [|exact Hle].
      simpl. intros. lia.
  - intros H. injection H as <-. apply sql_max_nil in E. subst t.
    split; [now left | repeat constructor; lia].
Qed.

(** The greatest element of a list, when there is one, is unique. *)
Lemma greatest_unique (l : list Z) (m m' : Z) :
  In m l -> Forall (fun x => x <= m) l ->
  In m' l -> Forall (fun x => x <= m') l -> m = m'.
Proof.
  rewrite !Forall_forall. intros Hm Hle Hm' Hle'.
  specialize (Hle _ Hm'). specialize (Hle' _ Hm). lia.
Qed.

Lemma dict_find_set (k : string) (v : pyval) (d : list (string * pyval)) :
  dict_find k (dict_set k v d) = Some v.
Proof.
  induction d as [|[k' v'] t IH]; simpl.
  - now rewrite String.eqb_refl.
  - destruct (String.eqb k k') eqn:E; simpl.
    + now rewrite String.eqb_refl.
    + now rewrite E.
Qed.

Lemma dig_version (data : list (string * pyval)) :
  _dig (PDict data) "version" = dict_get "version" data.
Proof.
  unfold _dig, dict_get.
  change (split "." "version") with ["version"%string]. simpl.
  destruct (dict_find "version" data); reflexivity.
Qed.

(** A version the validator lets through is an [int] (or a [bool]). *)
Lemma accepted_version_int (data : list (string * pyval)) (v : pyval) :
  validate_config_payload (PDict data) = [] ->
  dict_get "version" data = v -> v <> PNone -> isinstance v TInt = true.
Proof.
  intros Hv Hg Hn.
  destruct (isinstance v TInt) eqn:Ei; [reflexivity|].
  assert (Hin : In (message (WrongType "version" TInt))
                   (validate_config_payload (PDict data))).
  { apply violated_reported; [in_list|].
    cbn [violates]. rewrite dig_version, Hg, Ei.
    destruct v; try reflexivity. now elim Hn. }
  rewrite Hv in Hin. contradiction.
Qed.

Lemma dict_get_absent (k : string) (d : list (string * pyval)) :
  dict_mem k d = false -> dict_get k d = PNone.
Proof.
  unfold dict_mem, dict_get. destruct (dict_find k d); [discriminate | reflexivity].
Qed.

Section WithCollaborators.

Variable safe_load : string -> loaded.
Variable to_char : Z -> string.

(** The program [post_config] becomes once the body is accepted and
    carries no version. *)
Lemma post_config_auto (raw service : string) (data : list (string * pyval)) :
  accepted safe_load raw data -> dict_get "version" data = PNone ->
  post_config safe_load raw service
  = Yield (GetLatestVersion service)
      (resume (fun maxv =>
         let version := match maxv with None => 1 | Some m => m + 1 end in
         Yield (InsertConfig service (PInt version)
                  (PDict (dict_set "version" (PInt version) data)))
           (resume (fun _ => ret (saved service (PInt version)))))).
Proof.
  intros (Hraw & Hload & Hvalid) Hg. unfold post_config.
  destruct raw as [|c raw']; [now elim Hraw|].
  now rewrite Hload, Hvalid, Hg.
Qed.

(** The program [post_config] becomes once the body is accepted and
    carries a version. *)
Lemma post_config_explicit (raw service : string) (data : list (string * pyval))
    (v : pyval) :
  accepted safe_load raw data -> dict_get "version" data = v -> v <> PNone ->
  post_config safe_load raw service
  = Yield (InsertConfig service v (PDict data))
      (resume (fun _ => ret (saved service v))).
Proof.
  intros (Hraw & Hload & Hvalid) Hg Hn. unfold post_config.
  destruct raw as [|c raw']; [now elim Hraw|].
  rewrite Hload, Hvalid, Hg. destruct v; try reflexivity. now elim Hn.
Qed.

(** The number assigned from the store is not taken yet. *)
Lemma next_version_fresh (service : string) (st : store) :
  ~ In (match get_latest_version service st with None => 1 | Some m => m + 1 end)
       (versions service st).
Proof.
  unfold get_latest_version. fold (service_rows service st).
  fold (versions service st).
  destruct (sql_max (versions service st)) as [m|] eqn:E.
  - apply sql_max_greatest in E as [_ Hle].
    rewrite Forall_forall in Hle. intros Hin. specialize (Hle _ Hin). lia.
  - apply sql_max_nil in E. rewrite E. simpl. tauto.
Qed.

Lemma run_post_config_auto (raw service : string) (data : list (string * pyval))
    (st : store) (now : Z) :
  accepted safe_load raw data -> dict_get "version" data = PNone ->
  let v := match get_latest_version service st with None => 1 | Some m => m + 1 end in
  refused service v (PDict (dict_set "version" (PInt v) data)) = None ->
  run to_char now (post_config safe_load raw service) st
  = (Return (saved service (PInt v)),
     mk_store (rows st ++ [mk_row (next_id st) service v
                             (PDict (dict_set "version" (PInt v) data)) now])
              (next_id st + 1)).
Proof.
  intros Hacc Hg v Hr. rewrite (post_config_auto raw service data Hacc Hg).
  cbn [run perform resume]. fold v.
  rewrite insert_config_fresh; [reflexivity | apply next_version_fresh | exact Hr].
Qed.

End WithCollaborators.

(** [MAX(version)] is [NULL] for a service without rows. *)
Lemma latest_no_rows (service : string) (st : store) :
  no_rows service st -> get_latest_version service st = None.
Proof.
  unfold no_rows, get_latest_version. intros Hn.
  replace (filter (of_service service) (rows st)) with (@nil row); [reflexivity|].
  symmetry. revert Hn. generalize (rows st) as l.
  induction l as [|r t IH]; intros Hn; [reflexivity|].
  simpl. destruct (of_service service r) eqn:E.
  - apply String.eqb_eq in E. now elim (Hn r (or_introl eq_refl)).
  - apply IH. intros x Hx. apply Hn. now right.
Qed.

(** [MAX(version)] is the greatest version of the service. *)
Lemma latest_greatest (service : string) (st : store) (m : Z) :
  greatest service st m -> get_latest_version service st = Some m.
Proof.
  intros [(r & Hin & Hs & Hv) Hle]. unfold get_latest_version.
  assert (Hm : In m (map row_version (filter (of_service service) (rows st)))).
  { apply in_map_iff. exists r. split; [exact Hv|].
    apply filter_In. split; [exact Hin | now apply String.eqb_eq]. }
  destruct (sql_max (map row_version (filter (of_service service) (rows st))))
    as [m'|] eqn:E.
  - apply sql_max_greatest in E as [Hin' Hle']. f_equal.
    apply (greatest_unique _ m' m Hin' Hle' Hm).
    rewrite Forall_forall. intros x Hx.
    apply in_map_iff in Hx as (y & <- & Hy).
    apply filter_In in Hy as [Hy Hys]. apply String.eqb_eq in Hys. now apply Hle.
  - apply sql_max_nil in E. rewrite E in Hm. contradiction.
Qed.

Lemma has_nul_free (s : string) : has_nul s = negb (nul_free s).
Proof.
  unfold nul_free. induction s as [|c s IH]; [reflexivity|].
  cbn [has_nul list_ascii_of_string forallb]. rewrite IH.
  now destruct (Ascii.eqb c "000"); cbn; rewrite ?negb_involutive.
Qed.

Lemma not_finite_finite (bits : Z) : not_finite bits = negb (finite bits).
Proof.
  unfold not_finite, finite. rewrite negb_involutive.
  rewrite Z.shiftr_div_pow2 by lia.
  change 2047 with (Z.ones 11) at 1. rewrite Z.land_ones by lia. reflexivity.
Qed.

(** A document with a JSON text passes [json_dumps] and the input
    conversion of the store. *)
Lemma json_value_sent (v : pyval) :
  json_value v = true -> small_ints v = true /\ jsonb_errors v = [].
Proof.
  induction v as [| b | n | bits | s | items IH | items IH] using pyval_induction;
    cbn [json_value small_ints jsonb_errors]; intros H; try (now split).
  - rewrite not_finite_finite, H. now split.
  - rewrite has_nul_free, H. now split.
  - induction IH as [|x t Hx _ IHt]; [now split|].
    cbn [forallb flat_map] in *. apply andb_prop in H as [H1 H2].
    destruct (Hx H1) as [-> ->]. destruct (IHt H2) as [-> ->]. now split.
  - induction IH as [|[k x] t Hx _ IHt]; [now split|].
    cbn [forallb flat_map snd] in *. apply andb_prop in H as [H1 H2].
    apply andb_prop in H1 as [Hk H1].
    destruct (Hx H1) as [-> ->]. destruct (IHt H2) as [-> ->].
    rewrite has_nul_free, Hk. now split.
Qed.

(** Nothing about a storable row is refused. *)
Lemma storable_refused (service : string) (v : Z) (d : pyval) :
  storable service v d = true -> refused service v d = None.
Proof.
  unfold storable, refused. intros H.
  apply andb_prop in H as [H Hj]. apply andb_prop in H as [H Hhi].
  apply andb_prop in H as [Hs Hlo].
  destruct (json_value_sent d Hj) as [-> ->]. cbn [negb].
  rewrite has_nul_free, Hs. cbn [negb].
  unfold int4. apply Z.leb_le in Hlo. apply Z.ltb_lt in Hhi.
  change (- 2 ^ 31) with (-2147483648) in Hlo.
  change (2 ^ 31) with 2147483648 in Hhi.
  destruct (Z.leb_spec (-2147483648) v); [|lia].
  destruct (Z.leb_spec v 2147483647); [reflexivity | lia].
Qed.

End SubmissionFacts.




Section Persisted.

Variable to_char : Z -> string.

(** The rows a served request leaves in the store are the ones of its
    successful [insert_config] calls. *)
Lemma run_rows {A} (P : string -> pyval -> pyval -> Prop) (now : Z) (p : io A) :
  forall st,
    inserts P p ->
    exists added,
      Db.rows (snd (run to_char now p st)) = Db.rows st ++ added
      /\ Forall (fun r => exists v,
                   P (Db.row_service r) v (Db.row_payload r)
                   /\ Db.column_value v = Return (Db.row_version r)) added.
Proof.
  induction p as [r | X c k IH]; intros st Hp.
  - exists []. simpl. now rewrite app_nil_r.
  - destruct Hp as [Hc Hk]. cbn [run].
    destruct c as [s | s v d | s l]; cbn [perform].
    + apply IH, Hk.
    + destruct (insert_config_cases now s v d st) as [[e ->] | (n & Hv & _ & _ & ->)];
        [apply IH, Hk|].
      edestruct (IH (Return (Db.next_id st))) as [added [Hrows HF]]; [apply Hk|].
      eexists. split.
      * rewrite Hrows. cbn [Db.rows]. rewrite <- app_assoc. reflexivity.
      * constructor; [|exact HF]. exists v. split; [exact Hc | exact Hv].
    + apply IH, Hk.
Qed.

End Persisted.

(** C9: every [insert_config] call of the submission path passes a
    payload that is a map whose [version] entry is the version of the
    call, so every row written holds its own version in its payload:
    without a version in the document the assigned number is written
    into the document before the insert, with one the document is
    passed as it is and its validated version is the version of the
    call. *)
Theorem post_config_payload_version :
  forall (safe_load : string -> loaded) (raw service : string),
    inserts (payload_has_version service) (post_config safe_load raw service)
    /\ (forall (to_char : Z -> string) (now : Z) (st : Db.store),
          exists added,
            Db.rows (snd (run to_char now (post_config safe_load raw service) st))
            = Db.rows st ++ added
            /\ Forall (fun r =>
                         Db.row_service r = service
                         /\ exists items,
                              Db.row_payload r = PDict items
                              /\ dict_find "version" items
                                 = Some (PInt (Db.row_version r))) added)
    /\ (forall data,
          accepted safe_load raw data -> dict_get "version" data = PNone ->
          post_config safe_load raw service
          = Yield (GetLatestVersion service)
              (resume (fun maxv =>
                 let version := match maxv with None => 1 | Some m => m + 1 end in
                 Yield (InsertConfig service (PInt version)
                          (PDict (dict_set "version" (PInt version) data)))
                   (resume (fun _ => ret (saved service (PInt version)))))))
    /\ (forall data v,
          accepted safe_load raw data -> dict_get "version" data = v ->
          v <> PNone ->
          post_config safe_load raw service
          = Yield (InsertConfig service v (PDict data))
              (resume (fun _ => ret (saved service v)))).
Proof.
  intros safe_load raw service.
  assert (Hins : inserts (payload_has_version service)
                   (post_config safe_load raw service)).
  { unfold post_config.
    destruct raw as [|c raw']; [exact I|].
    destruct (safe_load (String c raw')) as [data | msg | e]; try exact I.
    destruct data as [| | | | | |data]; try exact I.
    destruct (validate_config_payload (PDict data)) eqn:Hvalid; [|exact I].
    destruct (dict_get "version" data) eqn:Hg.
    1: { cbn. split; [exact I|]. intros [maxv|e]; cbn; [|exact I].
         split; [|intros [i|e]; exact I].
         split; [reflexivity|]. split; [reflexivity|].
         eexists. split; [reflexivity | apply dict_find_set]. }
    all: cbn; split; [|intros [i|e]; exact I];
      (split; [reflexivity|]);
      (split; [eapply accepted_version_int; [exact Hvalid | exact Hg | discriminate]|]);
      exists data; (split; [reflexivity|]);
      unfold dict_get in Hg; destruct (dict_find "version" data); congruence. }
  split; [exact Hins|]. split; [|split].
  - intros to_char now st.
    destruct (run_rows to_char _ now _ st Hins) as [added [Hrows HF]].
    exists added. split; [exact Hrows|].
    eapply Forall_impl; [|exact HF].
    intros r (v & (Hs & Hi & items & Hd & Hf) & Hv). split; [exact Hs|].
    exists items. split; [exact Hd|]. rewrite Hf. f_equal.
    destruct v; try discriminate Hi; cbn in Hv; congruence.
  - apply post_config_auto.
  - apply post_config_explicit.
Qed.

Lemma post_config_payload_version_witness :
  post_config (fun _ => Loaded (PDict doc_v1)) "version: 1" "svc"
  = Yield (InsertConfig "svc" (PInt 1) (PDict doc_v1))
      (resume (fun _ => ret (saved "svc" (PInt 1))))
  /\ post_config (fun _ => Loaded (PDict doc_auto)) "database: {}" "svc"
     = Yield (GetLatestVersion "svc")
         (resume (fun maxv =>
            let version := match maxv with None => 1 | Some m => m + 1 end in
            Yield (InsertConfig "svc" (PInt version)
                     (PDict (dict_set "version" (PInt version) doc_auto)))
              (resume (fun _ => ret (saved "svc" (PInt version)))))).
Proof.
  split.
  - apply (proj2 (proj2 (proj2 (post_config_payload_version
                                  (fun _ => Loaded (PDict doc_v1)) "version: 1" "svc")))
             doc_v1 (PInt 1));
      [split; [discriminate | split; reflexivity] | reflexivity | discriminate].
  - apply (proj1 (proj2 (proj2 (post_config_payload_version
                                  (fun _ => Loaded (PDict doc_auto)) "database: {}" "svc")))
             doc_auto);
      [split; [discriminate | split; reflexivity] | reflexivity].
Defined.

(** The claim of C1 as it is written fails.  A caller-specified version
    that is already taken is answered with the generic 500 response, the
    same as any other store failure; and a request whose auto-assigned
    number is taken by another request between its read and its insert
    issues no second insert and is answered with the same response. *)
Lemma post_config_conflict_counterexample :
  (* version 1 exists; a submission names version 1 *)
  run (fun _ => "") 2 (post_config (fun _ => Loaded (PDict doc_v1)) "body" "svc")
    (snd (Db.insert_config 1 "svc" (PInt 1) (PDict doc_v1) Db.empty_store))
  = (Raise Db.UniqueViolation,
     snd (Db.insert_config 1 "svc" (PInt 1) (PDict doc_v1) Db.empty_store))
  /\ respond (Raise Db.UniqueViolation) = internal_error
  /\ respond (Raise Db.UniqueViolation)
     = respond (Raise (PyError "psycopg2.OperationalError"))
  (* two submissions without a version: the first reads the maximum, the
     second is served completely, then the first goes on *)
  /\ (let p := post_config (fun _ => Loaded (PDict doc_auto)) "body" "svc" in
      let first := fst (step (fun _ => "") 1 p Db.empty_store) in
      let st := snd (run (fun _ => "") 2 p Db.empty_store) in
      fst (run (fun _ => "") 2 p Db.empty_store) = Return (saved "svc" (PInt 1))
      /\ run (fun _ => "") 3 first st = (Raise Db.UniqueViolation, st)
      /\ first = Yield (InsertConfig "svc" (PInt 1)
                          (PDict (dict_set "version" (PInt 1) doc_auto)))
                   (resume (fun _ => ret (saved "svc" (PInt 1))))).
Proof.
  repeat split.
Qed.

(** C1, amended: the submission path has no recovery from a failed store
    call.  Whatever exception a store call of [post_config] fails with
    ends the request with that exception, nothing follows the
    [insert_config] call, and [_handle_errors] answers every exception
    that is not one of [app/errors.py] with 500 "internal server error";
    so an insert rejected because [(service, version)] exists is answered
    that way without a retry, for a caller-specified version and for an
    auto-assigned one alike, and leaves the store as it was. *)
Theorem post_config_no_recovery :
  (forall (safe_load : string -> loaded) (raw service : string),
      no_recovery (post_config safe_load raw service))
  /\ (forall cls : string, respond (Raise (PyError cls)) = internal_error)
  /\ (forall (safe_load : string -> loaded) (to_char : Z -> string)
             (raw service : string) (data : list (string * pyval)) (n : Z)
             (st : Db.store) (now : Z),
        accepted safe_load raw data -> dict_get "version" data = PInt n ->
        Db.has_version service n st = true ->
        run to_char now (post_config safe_load raw service) st
        = (Raise Db.UniqueViolation, st))
  /\ (forall (safe_load : string -> loaded) (to_char : Z -> string)
             (raw service : string) (data : list (string * pyval))
             (st st' : Db.store) (now now' : Z),
        accepted safe_load raw data -> dict_get "version" data = PNone ->
        Db.has_version service
          (match Db.get_latest_version service st with
           | None => 1 | Some m => m + 1 end) st' = true ->
        run to_char now'
          (fst (step to_char now (post_config safe_load raw service) st)) st'
        = (Raise Db.UniqueViolation, st')).
Proof.
  split; [|split; [|split]].
  - intros safe_load raw service. unfold post_config.
    destruct raw as [|c raw']; [exact I|].
    destruct (safe_load (String c raw')) as [data | msg | e]; try exact I.
    destruct data as [| | | | | |data]; try exact I.
    destruct (validate_config_payload (PDict data)); [|exact I].
    destruct (dict_get "version" data);
      cbn; repeat split; try reflexivity;
      repeat (let r := fresh in intros r; destruct r);
      cbn; repeat split; try reflexivity;
      repeat (let r := fresh in intros r; destruct r); exact I.
  - reflexivity.
  - intros safe_load to_char raw service data n st now Hacc Hg Hhas.
    rewrite (post_config_explicit safe_load raw service data (PInt n) Hacc Hg)
      by discriminate.
    cbn [run perform]. unfold Db.insert_config, Db.insert_row.
    cbn [Db.column_value]. now rewrite Hhas.
  - intros safe_load to_char raw service data st st' now now' Hacc Hg Hhas.
    rewrite (post_config_auto safe_load raw service data Hacc Hg).
    cbn [step perform fst resume run]. unfold Db.insert_config, Db.insert_row.
    cbn [Db.column_value]. now rewrite Hhas.
Qed.

Lemma post_config_no_recovery_witness :
  run (fun _ => "") 2 (post_config (fun _ => Loaded (PDict doc_v1)) "body" "svc")
    (snd (Db.insert_config 1 "svc" (PInt 1) (PDict doc_v1) Db.empty_store))
  = (Raise Db.UniqueViolation,
     snd (Db.insert_config 1 "svc" (PInt 1) (PDict doc_v1) Db.empty_store))
  /\ run (fun _ => "") 3
       (fst (step (fun _ => "") 1
               (post_config (fun _ => Loaded (PDict doc_auto)) "body" "svc")
               Db.empty_store))
       (snd (Db.insert_config 2 "svc" (PInt 1) (PDict doc_v1) Db.empty_store))
     = (Raise Db.UniqueViolation,
        snd (Db.insert_config 2 "svc" (PInt 1) (PDict doc_v1) Db.empty_store)).
Proof.
  split.
  - apply (proj1 (proj2 (proj2 post_config_no_recovery))
             (fun _ => Loaded (PDict doc_v1)) (fun _ => "") "body" "svc" doc_v1 1);
      [split; [discriminate | split; reflexivity] | reflexivity | reflexivity].
  - apply (proj2 (proj2 (proj2 post_config_no_recovery))
             (fun _ => Loaded (PDict doc_auto)) (fun _ => "") "body" "svc" doc_auto
             Db.empty_store);
      [split; [discriminate | split; reflexivity] | reflexivity | reflexivity].
Defined.

(** * Further properties of the code *)

(** ** Validator: acceptance, edge inputs, exactness *)

Section ValidatorMore.

Lemma not_violated (doc : pyval) (c : check) :
  validate_config_payload doc = [] -> In c checks -> violates doc c = false.
Proof.
  intros Hv Hc. destruct (violates doc c) eqn:E; [|reflexivity].
  pose proof (violated_reported doc c Hc E) as Hin.
  rewrite Hv in Hin. contradiction.
Qed.

Lemma all_space_false_strip (s : string) :
  all_space s = false -> exists c r, strip s = String c r.
Proof.
  intros H. destruct (strip s) as [|c r] eqn:E; [|eauto].
  apply strip_empty_iff in E. congruence.
Qed.

(** X1: the validator returns the empty list exactly for the documents
    whose [version] is missing, null or an integer, whose
    [database.host] is a string that is not blank and whose
    [database.port] is an integer within 1..65535. *)
Theorem validate_accepts_iff (doc : pyval) :
  validate_config_payload doc = [] <-> acceptable doc.
Proof.
  split.
  - intros Hv.
    pose proof (not_violated doc (WrongType "version" TInt) Hv) as H1.
    pose proof (not_violated doc (Missing "database.host") Hv) as H2.
    pose proof (not_violated doc (WrongType "database.host" TStr) Hv) as H3.
    pose proof (not_violated doc (Missing "database.port") Hv) as H4.
    pose proof (not_violated doc (WrongType "database.port" TInt) Hv) as H5.
    pose proof (not_violated doc PortRange Hv) as H6.
    pose proof (not_violated doc HostBlank Hv) as H7.
    specialize (H1 ltac:(in_list)). specialize (H2 ltac:(in_list)).
    specialize (H3 ltac:(in_list)). specialize (H4 ltac:(in_list)).
    specialize (H5 ltac:(in_list)). specialize (H6 ltac:(in_list)).
    specialize (H7 ltac:(in_list)).
    cbn [violates] in *. unfold acceptable.
    split; [|split].
    + destruct (_dig doc "version"); try exact I; discriminate.
    + destruct (_dig doc "database.host") as [| | | |s| |]; try discriminate.
      exists s. split; [reflexivity|].
      cbn in H7. destruct (all_space s) eqn:E; [|reflexivity].
      now rewrite (strip_all_space s E) in H7.
    + destruct (_dig doc "database.port") as [|b|n| | | |]; try discriminate.
      * destruct b; [reflexivity | discriminate].
      * cbn in H6. apply negb_false_iff, andb_prop in H6 as [Ha Hb]. lia.
  - intros (Hver & (s & Hs & Hblank) & Hport).
    rewrite validate_checks. unfold checks. cbn [flat_map REQUIRED_FIELDS fst snd app].
    cbn [filter violates]. rewrite Hs.
    destruct (all_space_false_strip s Hblank) as (c & r & Hstrip).
    cbn [is_none isinstance negb andb host_blank]. rewrite Hstrip.
    destruct (_dig doc "database.port") as [|b|n| | | |]; try contradiction.
    + subst b. destruct (_dig doc "version"); try contradiction; reflexivity.
    + cbn [is_none isinstance negb andb port_out_of_range].
      replace (1 <=? n) with true by (symmetry; apply Z.leb_le; lia).
      replace (n <=? 65535) with true by (symmetry; apply Z.leb_le; lia).
      destruct (_dig doc "version"); try contradiction; reflexivity.
Qed.

(** X2: a document that is not a map at its root, or whose [database]
    entry is missing or not a map, is reported with both
    [Missing required field] messages; for a root that is not a map they
    are the whole result. *)
Theorem validate_not_a_map :
  (forall doc : pyval,
      (forall items, doc <> PDict items) ->
      validate_config_payload doc
      = [missing_error "database.host"; missing_error "database.port"])
  /\ (forall items : list (string * pyval),
        (forall d, dict_find "database" items <> Some (PDict d)) ->
        In (missing_error "database.host") (validate_config_payload (PDict items))
        /\ In (missing_error "database.port") (validate_config_payload (PDict items))).
Proof.
  split.
  - intros doc Hn. destruct doc; try reflexivity. now elim (Hn items).
  - intros items Hn.
    assert (Hh : _dig (PDict items) "database.host" = PNone).
    { unfold _dig. change (split "." "database.host") with ["database"; "host"]%string.
      simpl. destruct (dict_find "database" items) as [v|]; [|reflexivity].
      destruct v; try reflexivity. now elim (Hn items0). }
    assert (Hp : _dig (PDict items) "database.port" = PNone).
    { unfold _dig. change (split "." "database.port") with ["database"; "port"]%string.
      simpl. destruct (dict_find "database" items) as [v|]; [|reflexivity].
      destruct v; try reflexivity. now elim (Hn items0). }
    split.
    + apply (violated_reported _ (Missing "database.host")); [in_list|].
      cbn [violates]. now rewrite Hh.
    + apply (violated_reported _ (Missing "database.port")); [in_list|].
      cbn [violates]. now rewrite Hp.
Qed.

Lemma validate_not_a_map_witness :
  validate_config_payload (PList [PInt 1])
  = [missing_error "database.host"; missing_error "database.port"]
  /\ In (missing_error "database.host")
        (validate_config_payload (PDict [("database", PStr "h:80")])).
Proof.
  split.
  - apply (proj1 validate_not_a_map). discriminate.
  - apply (proj2 validate_not_a_map [("database", PStr "h:80")]).
    discriminate.
Defined.

End ValidatorMore.

Section ValidatorExact.

Lemma message_inj (c c' : check) :
  In c checks -> In c' checks -> message c = message c' -> c = c'.
Proof.
  intros Hc Hc' Hm. cbn in Hc, Hc'.
  repeat (destruct Hc as [<- | Hc]; [|]); try contradiction;
    repeat (destruct Hc' as [<- | Hc']; [|]); try contradiction;
    first [reflexivity | cbn in Hm; discriminate Hm].
Qed.

(** X3: a message is in the result exactly when its check is violated:
    the validator reports nothing about a rule the document meets.  In
    particular the port message appears exactly for an integer outside
    1..65535 (or [False]) and the host message exactly for a
    whitespace-only string. *)
Theorem validate_exact :
  (forall (doc : pyval) (c : check),
      In c checks ->
      (In (message c) (validate_config_payload doc) <-> violates doc c = true))
  /\ (forall doc : pyval,
        In "Invalid database.port: must be 1..65535" (validate_config_payload doc)
        <-> (exists n, _dig doc "database.port" = PInt n /\ (n < 1 \/ 65535 < n))
            \/ _dig doc "database.port" = PBool false)
  /\ (forall doc : pyval,
        In "Invalid database.host: must be non-empty string"
           (validate_config_payload doc)
        <-> exists s, _dig doc "database.host" = PStr s /\ all_space s = true).
Proof.
  assert (Hex : forall doc c, In c checks ->
            (In (message c) (validate_config_payload doc) <-> violates doc c = true)).
  { intros doc c Hc. split; [|now apply violated_reported].
    intros Hin. apply reported_violated in Hin as (c' & Hc' & Hv & Hm).
    now rewrite <- (message_inj c' c Hc' Hc Hm). }
  split; [exact Hex|]. split; intros doc.
  - rewrite (Hex doc PortRange) by in_list. cbn [violates].
    destruct (_dig doc "database.port") as [|b|n| | | |]; cbn;
      try (split; [discriminate | intros [(n' & Hn & _) | Hn]; discriminate Hn]).
    + destruct b; cbn; split; try discriminate; auto.
      intros [(n' & Hn & _) | Hn]; discriminate Hn.
    + split.
      * intros H. left. exists n. split; [reflexivity|].
        apply negb_true_iff, andb_false_iff in H as [H|H];
          apply Z.leb_gt in H; lia.
      * intros [(n' & Hn & Hr) | Hn]; [|discriminate Hn].
        injection Hn as <-. apply negb_true_iff, andb_false_iff.
        destruct Hr; [left | right]; apply Z.leb_gt; lia.
  - rewrite (Hex doc HostBlank) by in_list. cbn [violates].
    destruct (_dig doc "database.host") as [| | | |s| |]; cbn;
      try (split; [discriminate | intros (s' & Hs & _); discriminate Hs]).
    split.
    + intros H. exists s. split; [reflexivity|].
      apply strip_empty_iff. destruct (strip s); [reflexivity | discriminate].
    + intros (s' & Hs & Hb). injection Hs as <-.
      now rewrite (strip_all_space s Hb).
Qed.

Lemma validate_exact_witness :
  In (message (Missing "database.port"))
     (validate_config_payload (PDict [("database", PDict [("host", PStr "h")])]))
  <-> violates (PDict [("database", PDict [("host", PStr "h")])])
        (Missing "database.port") = true.
Proof.
  apply (proj1 validate_exact). in_list.
Defined.

Lemma check_field_length (doc : pyval) (f : string * pytype) :
  (length (check_field doc f) <= 1)%nat.
Proof.
  destruct f as [path t]. unfold check_field.
  destruct (_dig doc path); cbn;
    repeat match goal with
           | |- context [if ?b then _ else _] => destruct b; cbn
           end; lia.
Qed.

Lemma check_port_length (doc : pyval) :
  (length (check_field doc ("database.port", TInt))
   + (if port_out_of_range (_dig doc "database.port") then 1 else 0) <= 1)%nat.
Proof.
  unfold check_field.
  destruct (_dig doc "database.port"); cbn;
    repeat match goal with
           | |- context [if ?b then _ else _] => destruct b; cbn
           end; lia.
Qed.

Lemma check_host_length (doc : pyval) :
  (length (check_field doc ("database.host", TStr))
   + (if host_blank (_dig doc "database.host") then 1 else 0) <= 1)%nat.
Proof.
  unfold check_field.
  destruct (_dig doc "database.host"); cbn;
    repeat match goal with
           | |- context [if ?b then _ else _] => destruct b; cbn
           end; lia.
Qed.

(** X4: no document gets more than three messages, one per field: a
    field reported as missing or of the wrong type is not reported again
    by the range or blank check. *)
Theorem validate_at_most_three (doc : pyval) :
  (length (validate_config_payload doc) <= 3)%nat.
Proof.
  pose proof (check_field_length doc ("version", TInt)) as Hv.
  pose proof (check_port_length doc) as Hp.
  pose proof (check_host_length doc) as Hh.
  unfold validate_config_payload, REQUIRED_FIELDS. cbn [flat_map].
  destruct (port_out_of_range (_dig doc "database.port"));
    destruct (host_blank (_dig doc "database.host"));
    rewrite ?length_app in *; cbn [length] in *; lia.
Qed.

End ValidatorExact.

(** ** Template rendering: order of evaluation, shape of the result *)

Section RenderMore.

Variable jinja_other : string -> pyval -> Jinja.outcome.
Variable context : pyval.

Let render := fun doc => _render jinja_other doc context.
Let ferr := first_error jinja_other context.

Lemma first_error_app (l l' : list string) :
  ferr (l ++ l') = match ferr l with Some e => Some e | None => ferr l' end.
Proof.
  induction l as [|s t IH]; simpl; [reflexivity|].
  unfold ferr in *. simpl.
  destruct (leaf_error jinja_other context s); [reflexivity | exact IH].
Qed.

(** [_render] fails with the exception of the first failing leaf in
    document order and succeeds when no leaf fails. *)
Lemma render_first_error (doc : pyval) :
  match ferr (leaves doc) with
  | Some e => render doc = Raise e
  | None => exists out, render doc = Return out
  end.
Proof.
  induction doc as [| b | n | bits | s | items IH | items IH]
    using pyval_induction;
    try (simpl; eexists; reflexivity).
  - unfold ferr, render. simpl. unfold leaf_error. rewrite has_tpl_marked.
    destruct (marked s); [|eauto].
    destruct (jinja_render jinja_other s context); eauto.
  - unfold render in *. rewrite (render_list jinja_other context). cbn [leaves].
    induction IH as [|x t Hx _ IHt]; [simpl; eauto|].
    cbn [flat_map traverse]. rewrite first_error_app.
    destruct (ferr (leaves x)) as [e|].
    + now rewrite Hx.
    + destruct Hx as [y Hy]. rewrite Hy.
      match goal with
      | |- context [traverse ?f t] => set (tr := traverse f t) in *
      end.
      destruct (ferr (flat_map leaves t)) as [e|].
      * destruct tr; [discriminate | now injection IHt as ->].
      * destruct IHt as [out Ho]. destruct tr; [eauto | discriminate].
  - unfold render in *. rewrite (render_dict jinja_other context). cbn [leaves].
    induction IH as [|[k v] t Hx _ IHt]; [simpl; eauto|].
    cbn [flat_map traverse snd] in *. rewrite first_error_app.
    destruct (ferr (leaves v)) as [e|].
    + now rewrite Hx.
    + destruct Hx as [y Hy]. rewrite Hy.
      match goal with
      | |- context [traverse ?f t] => set (tr := traverse f t) in *
      end.
      match goal with
      | |- context [ferr ?l] => destruct (ferr l) as [e|]
      end.
      * destruct tr; [discriminate | now injection IHt as ->].
      * destruct IHt as [out Ho]. destruct tr; [eauto | discriminate].
Qed.

Lemma leaf_leaves (s : string) (doc : pyval) : leaf s doc <-> In s (leaves doc).
Proof.
  induction doc as [| b | n | bits | s0 | items IH | items IH]
    using pyval_induction;
    try (split; [inversion 1 | contradiction]).
  - split.
    + inversion 1. now left.
    + intros [-> | []]. constructor.
  - rewrite Forall_forall in IH. cbn [leaves]. rewrite in_flat_map. split.
    + inversion 1 as [|? x Hin Hl|]; subst. exists x. split; [exact Hin|].
      now apply IH.
    + intros (x & Hin & Hl). apply leaf_item with x; [exact Hin|].
      now apply IH.
  - rewrite Forall_forall in IH. cbn [leaves]. rewrite in_flat_map. split.
    + inversion 1 as [| |? k v Hin Hl]; subst. exists (k, v).
      split; [exact Hin|]. now apply (IH (k, v)).
    + intros ([k v] & Hin & Hl). apply leaf_value with k v; [exact Hin|].
      now apply (IH (k, v)).
Qed.

End RenderMore.

(** X5: [_render] visits the string leaves in document order (sequence
    elements left to right, map values in insertion order): it raises
    the exception of the first leaf that fails, and it returns a document
    exactly when no leaf fails. *)
Theorem render_in_document_order :
  forall (jinja_other : string -> pyval -> Jinja.outcome) (doc context : pyval),
    (forall e, first_error jinja_other context (leaves doc) = Some e ->
               _render jinja_other doc context = Raise e)
    /\ ((exists out, _render jinja_other doc context = Return out)
        <-> forall s, leaf s doc -> leaf_error jinja_other context s = None).
Proof.
  intros other doc ctx.
  pose proof (render_first_error other ctx doc) as H.
  split.
  - intros e He. now rewrite He in H.
  - split.
    + intros [out Ho] s Hl.
      destruct (leaf_error other ctx s) as [e|] eqn:E; [|reflexivity].
      destruct (render_leaf_fails other ctx doc s e Hl E) as [e' He'].
      congruence.
    + intros Hall.
      destruct (first_error other ctx (leaves doc)) as [e|] eqn:E; [|exact H].
      destruct (render_raise_leaf other ctx doc e H) as (s & Hl & Hs).
      rewrite (Hall s Hl) in Hs. discriminate.
Qed.

Lemma render_in_document_order_witness :
  _render (fun _ _ => Raised (PyError "ZeroDivisionError"))
    (PDict [("a", PList [PStr "{{ x / 0 }}"; PStr "{{missing}}"]);
            ("b", PStr "{{ also_missing }}")])
    (PDict [("x", PInt 1)])
  = Raise (PyError "ZeroDivisionError").
Proof.
  apply (proj1 (render_in_document_order
                  (fun _ _ => Raised (PyError "ZeroDivisionError"))
                  (PDict [("a", PList [PStr "{{ x / 0 }}"; PStr "{{missing}}"]);
                          ("b", PStr "{{ also_missing }}")])
                  (PDict [("x", PInt 1)]))).
  reflexivity.
Defined.

(** X6: [render_config] returns maps only, and only for maps: when it
    returns, its input was a map and the result is a map with the same
    keys; a sequence or a scalar at the root that renders without error
    ends in the [AssertionError] of the final [assert]. *)
Theorem render_config_map_only :
  forall (jinja_other : string -> pyval -> Jinja.outcome) (doc context : pyval),
    (forall out, render_config jinja_other doc context = Return out ->
                 exists items items',
                   doc = PDict items /\ out = PDict items'
                   /\ map fst items' = map fst items)
    /\ ((forall items, doc <> PDict items) ->
        (exists out, _render jinja_other doc context = Return out) ->
        render_config jinja_other doc context = Raise AssertionError).
Proof.
  intros other doc ctx. split.
  - intros out H.
    unfold render_config in H.
    destruct (_render other doc ctx) as [r|e] eqn:Er; [|discriminate].
    destruct r; try discriminate. injection H as <-.
    pose proof (render_sound other ctx doc _ Er) as Hra.
    inversion Hra as [| | | | | | |items0 ? HF]; subst.
    exists items0, items. repeat split.
    destruct (rendered_as_dict_keys other ctx items0 (PDict items) Hra)
      as (items' & Heq & Hk).
    now injection Heq as <-.
  - intros Hn [out Ho]. unfold render_config. rewrite Ho.
    pose proof (render_sound other ctx doc out Ho) as Hra.
    inversion Hra; subst; try reflexivity.
    now elim (Hn items).
Qed.

Lemma render_config_map_only_witness :
  render_config (fun _ _ => Rendered "") (PList [PStr "{{a}}"])
    (PDict [("a", PStr "x")])
  = Raise AssertionError.
Proof.
  apply (proj2 (render_config_map_only (fun _ _ => Rendered "")
                  (PList [PStr "{{a}}"]) (PDict [("a", PStr "x")]))).
  - discriminate.
  - eexists. reflexivity.
Defined.

(** ** Store: latest version, append-only, other services *)

Section StoreMore.

Import Db.

Lemma filter_nil_existsb {A} (p : A -> bool) (l : list A) :
  existsb p l = false -> filter p l = [].
Proof.
  induction l as [|x t IH]; simpl; [reflexivity|].
  destruct (p x); simpl; [discriminate | exact IH].
Qed.

Lemma get_config_version_rows (service : string) (v : Z) (st : store) :
  get_config service (Some v) st
  = match filter (of_service_version service v) (rows st) with
    | r :: _ => Some (row_version r, row_payload r)
    | [] => None
    end.
Proof. reflexivity. Qed.

Lemma inserts_trivial {A} (p : io A) : inserts (fun _ _ _ => True) p.
Proof.
  induction p as [r | X c k IH]; simpl; [exact I|].
  split; [destruct c; exact I | exact IH].
Qed.

End StoreMore.

Section StoreReads.

Import Db.

Lemma sql_max_app_le (l l' : list Z) (m : Z) :
  sql_max l = Some m -> exists m', sql_max (l ++ l') = Some m' /\ m <= m'.
Proof.
  revert m. induction l as [|x t IH]; intros m H; [discriminate|].
  simpl in *. destruct (sql_max t) as [mt|] eqn:Et.
  - injection H as <-. destruct (IH mt eq_refl) as (m' & -> & Hle).
    eexists. split; [reflexivity | lia].
  - injection H as <-. apply sql_max_nil in Et. subst t. simpl.
    destruct (sql_max l') as [m2|]; eexists; (split; [reflexivity | lia]).
Qed.

Lemma order_version_head (l : list row) :
  match order_by_version_desc l with
  | [] => l = []
  | h :: _ => In h l /\ Forall (fun x => row_version x <= row_version h) l
  end.
Proof.
  induction l as [|a t IH]; [reflexivity|].
  simpl. destruct (order_by_version_desc t) as [|h t'].
  - subst t. simpl. split; [now left | repeat constructor; lia].
  - destruct IH as [Hin Hle]. simpl.
    destruct (Z.ltb_spec (row_version h) (row_version a)) as [Hlt|Hge].
    + split; [now left|]. constructor; [lia|].
      eapply Forall_impl; [|exact Hle]. simpl. intros. lia.
    + split; [now right|]. constructor; [exact Hge | exact Hle].
Qed.

Lemma filter_unique_key (service : string) (v : Z) (st : store) (r : row) :
  unique_versions st ->
  In r (rows st) -> row_service r = service -> row_version r = v ->
  filter (of_service_version service v) (rows st) = [r].
Proof.
  unfold unique_versions. intros Hu Hin Hs Hv.
  induction (rows st) as [|x t IH]; [contradiction|].
  simpl in Hu. inversion Hu as [|? ? Hnotin Hu']; subst.
  assert (Hnone : forall y, In y t -> row_service y = row_service r ->
                            row_version y = row_version r ->
                            In (row_service r, row_version r)
                               (map (fun r => (row_service r, row_version r)) t)).
  { intros y Hy Hys Hyv. apply in_map_iff. exists y. split; [|exact Hy].
    now rewrite Hys, Hyv. }
  simpl. destruct Hin as [-> | Hin].
  - unfold of_service_version at 1, of_service.
    rewrite String.eqb_refl, Z.eqb_refl. simpl. f_equal.
    apply filter_nil_existsb.
    destruct (existsb _ t) eqn:E; [|reflexivity].
    apply existsb_exists in E as (y & Hy & Hp).
    unfold of_service_version, of_service in Hp.
    apply andb_prop in Hp as [Hp1 Hp2].
    apply String.eqb_eq in Hp1. apply Z.eqb_eq in Hp2.
    elim Hnotin. now apply (Hnone y).
  - destruct (of_service_version (row_service r) (row_version r) x) eqn:E.
    + unfold of_service_version, of_service in E.
      apply andb_prop in E as [E1 E2].
      apply String.eqb_eq in E1. apply Z.eqb_eq in E2.
      elim Hnotin. rewrite E1, E2. now apply (Hnone r).
    + now apply IH.
Qed.

End StoreReads.

(** X9: the latest configuration [get_config] returns for [version=None]
    carries the version [get_latest_version] reports and is a row of the
    service; there is none exactly when the service has no rows; and with
    unique versions reading that version by number gives the same
    configuration. *)
Theorem get_config_latest :
  forall (service : string) (st : Db.store),
    (Db.get_config service None st = None
     <-> Db.get_latest_version service st = None)
    /\ (forall v d,
          Db.get_config service None st = Some (v, d) ->
          Db.get_latest_version service st = Some v
          /\ (exists r, In r (Db.rows st) /\ Db.row_service r = service
                        /\ Db.row_version r = v /\ Db.row_payload r = d)
          /\ (unique_versions st ->
              Db.get_config service (Some v) st = Some (v, d))).
Proof.
  intros service st.
  pose proof (order_version_head (service_rows service st)) as Hh.
  unfold Db.get_config, Db.get_latest_version.
  fold (service_rows service st).
  destruct (Db.order_by_version_desc (service_rows service st)) as [|h t] eqn:Eo.
  - rewrite Hh. simpl. split; [tauto | discriminate].
  - destruct Hh as [Hin Hle]. cbn [firstn]. split.
    + split; [discriminate|]. intros Hn. apply sql_max_nil in Hn.
      destruct (service_rows service st); [contradiction | discriminate].
    + intros v d H. injection H as <- <-.
      apply filter_In in Hin as [Hrow Hs]. apply String.eqb_eq in Hs.
      split; [|split].
      * fold (versions service st).
        destruct (Db.sql_max (versions service st)) as [m|] eqn:Em.
        -- apply sql_max_greatest in Em as [Hm Hmle]. f_equal.
           unfold versions in *.
           apply (greatest_unique (map Db.row_version (service_rows service st))).
           ++ exact Hm.
           ++ exact Hmle.
           ++ apply in_map. apply filter_In. split; [exact Hrow|].
              now apply String.eqb_eq.
           ++ rewrite Forall_forall in *. intros x Hx.
              apply in_map_iff in Hx as (r & <- & Hr). now apply Hle.
        -- apply sql_max_nil in Em. unfold versions in Em.
           apply map_eq_nil in Em. rewrite Em in Hle.
           assert (Hc : In h (service_rows service st))
             by (apply filter_In; split; [exact Hrow | now apply String.eqb_eq]).
           rewrite Em in Hc. contradiction.
      * exists h. auto.
      * intros Hu.
        now rewrite (filter_unique_key service (Db.row_version h) st h Hu Hrow Hs eq_refl).
Qed.

Lemma get_config_latest_witness :
  let st := insert_seq "svc" [(2, PDict doc_auto, 10); (1, PDict doc_v1, 20)]
              Db.empty_store in
  Db.get_latest_version "svc" st = Some 2
  /\ (exists r, In r (Db.rows st) /\ Db.row_service r = "svc"
                /\ Db.row_version r = 2 /\ Db.row_payload r = PDict doc_auto)
  /\ (unique_versions st -> Db.get_config "svc" (Some 2) st = Some (2, PDict doc_auto)).
Proof.
  cbv zeta.
  apply (proj2 (get_config_latest "svc"
                  (insert_seq "svc" [(2, PDict doc_auto, 10); (1, PDict doc_v1, 20)]
                     Db.empty_store))).
  reflexivity.
Defined.

(** X10: the store is append-only under every request: the rows after a
    request are the rows before it followed by new ones, a configuration
    read by service and version reads the same afterwards, no version of
    a service disappears and the greatest version does not decrease. *)
Theorem store_append_only :
  forall (A : Type) (to_char : Z -> string) (now : Z) (p : io A) (st : Db.store),
    let st' := snd (run to_char now p st) in
    (exists added, Db.rows st' = Db.rows st ++ added)
    /\ (forall service v x,
          Db.get_config service (Some v) st = Some x ->
          Db.get_config service (Some v) st' = Some x)
    /\ (forall service v, In v (versions service st) -> In v (versions service st'))
    /\ (forall service m,
          Db.get_latest_version service st = Some m ->
          exists m', Db.get_latest_version service st' = Some m' /\ m <= m').
Proof.
  intros A to_char now p st st'.
  destruct (run_rows to_char (fun _ _ _ => True) now p st (inserts_trivial p))
    as [added [Hrows _]].
  fold st' in Hrows.
  split; [now exists added|]. split; [|split].
  - intros service v x H. rewrite get_config_version_rows in *.
    rewrite Hrows, filter_app.
    destruct (filter (Db.of_service_version service v) (Db.rows st)); [discriminate|].
    exact H.
  - intros service v H. unfold versions, service_rows in *.
    rewrite Hrows, filter_app, map_app. apply in_or_app. now left.
  - intros service m H. unfold Db.get_latest_version in *.
    rewrite Hrows, filter_app, map_app. now apply sql_max_app_le.
Qed.

Lemma store_append_only_witness :
  let st := snd (Db.insert_config 1 "svc" (PInt 1) (PDict doc_v1) Db.empty_store) in
  Db.get_config "svc" (Some 1)
    (snd (run (fun _ => "") 2
            (post_config (fun _ => Loaded (PDict doc_auto)) "body" "svc") st))
  = Some (1, PDict doc_v1).
Proof.
  cbv zeta.
  apply (proj1 (proj2 (store_append_only response (fun _ => "") 2
                         (post_config (fun _ => Loaded (PDict doc_auto)) "body" "svc")
                         (snd (Db.insert_config 1 "svc" (PInt 1) (PDict doc_v1)
                                 Db.empty_store))))).
  reflexivity.
Defined.

Lemma post_config_inserts_service (safe_load : string -> loaded)
    (raw service : string) :
  inserts (fun s _ _ => s = service) (post_config safe_load raw service).
Proof.
  unfold post_config.
  destruct raw as [|c raw']; [exact I|].
  destruct (safe_load (String c raw')) as [data | msg | e]; try exact I.
  destruct data as [| | | | | |data]; try exact I.
  destruct (validate_config_payload (PDict data)); [|exact I].
  destruct (dict_get "version" data);
    cbn; repeat split;
    repeat (let r := fresh in intros r; destruct r);
    cbn; repeat split;
    repeat (let r := fresh in intros r; destruct r); exact I.
Qed.

(** X11: a submission to one service changes nothing another service
    reads: its rows, its latest version, its history and its
    configurations are the same before and after. *)
Theorem post_config_other_service :
  forall (safe_load : string -> loaded) (to_char : Z -> string)
         (raw service other : string) (now : Z) (st : Db.store),
    other <> service ->
    let st' := snd (run to_char now (post_config safe_load raw service) st) in
    service_rows other st' = service_rows other st
    /\ Db.get_latest_version other st' = Db.get_latest_version other st
    /\ (forall limit, Db.get_history to_char other limit st'
                      = Db.get_history to_char other limit st)
    /\ (forall version, Db.get_config other version st'
                        = Db.get_config other version st).
Proof.
  intros safe_load to_char raw service other now st Hne st'.
  destruct (run_rows to_char _ now _ st
              (post_config_inserts_service safe_load raw service))
    as [added [Hrows HF]].
  fold st' in Hrows.
  assert (Hnone : forall p : Db.row -> bool,
             (forall r, p r = true -> Db.row_service r = other) ->
             filter p added = []).
  { intros p Hp. apply filter_nil_existsb.
    destruct (existsb p added) eqn:E; [|reflexivity].
    apply existsb_exists in E as (r & Hr & Hpr).
    rewrite Forall_forall in HF. destruct (HF r Hr) as (v & Hs & _).
    specialize (Hp r Hpr). congruence. }
  assert (Hsvc : forall r, Db.of_service other r = true -> Db.row_service r = other)
    by (intros r Hr; now apply String.eqb_eq in Hr).
  assert (Hrows' : service_rows other st' = service_rows other st).
  { unfold service_rows. rewrite Hrows, filter_app, (Hnone _ Hsvc).
    apply app_nil_r. }
  split; [exact Hrows'|]. split; [|split].
  - unfold Db.get_latest_version. fold (service_rows other st').
    fold (service_rows other st). now rewrite Hrows'.
  - intros limit. unfold Db.get_history, Db.history_rows.
    fold (service_rows other st'). fold (service_rows other st).
    now rewrite Hrows'.
  - intros [v|]; unfold Db.get_config.
    + rewrite Hrows, filter_app, Hnone, app_nil_r; [reflexivity|].
      intros r Hr. unfold Db.of_service_version in Hr.
      apply andb_prop in Hr as [Hr _]. now apply Hsvc.
    + fold (service_rows other st'). fold (service_rows other st).
      now rewrite Hrows'.
Qed.

Lemma post_config_other_service_witness :
  Db.get_latest_version "other"
    (snd (run (fun _ => "") 2
            (post_config (fun _ => Loaded (PDict doc_auto)) "body" "svc")
            (snd (Db.insert_config 1 "other" (PInt 4) (PDict doc_v1) Db.empty_store))))
  = Db.get_latest_version "other"
      (snd (Db.insert_config 1 "other" (PInt 4) (PDict doc_v1) Db.empty_store)).
Proof.
  apply (post_config_other_service (fun _ => Loaded (PDict doc_auto)) (fun _ => "")
           "body" "svc" "other" 2
           (snd (Db.insert_config 1 "other" (PInt 4) (PDict doc_v1) Db.empty_store))).
  discriminate.
Defined.



(** ** Submission: rejections, sequences, reading back *)

(** X13: [post_config] reaches the store only with an accepted body.  An
    empty body, a YAML error and a document that is not a map end the
    request with [BadRequest]; a map the validator rejects ends it with
    [UnprocessableEntity] carrying every message of the validator, which
    the error handler answers with status 422 and the messages in order;
    in all these cases no store call is issued and the store is left as
    it was. *)
Theorem post_config_rejections :
  forall (safe_load : string -> loaded) (raw service : string),
    (raw = EmptyString ->
     post_config safe_load raw service = Done (Raise (BadRequest "empty body")))
    /\ (forall msg, raw <> EmptyString -> safe_load raw = YAMLError msg ->
          post_config safe_load raw service
          = Done (Raise (BadRequest ("YAML parse error: " ++ msg)%string)))
    /\ (forall data, raw <> EmptyString -> safe_load raw = Loaded data ->
          (forall items, data <> PDict items) ->
          post_config safe_load raw service
          = Done (Raise (BadRequest "YAML must represent a mapping (object)")))
    /\ (forall items, raw <> EmptyString -> safe_load raw = Loaded (PDict items) ->
          validate_config_payload (PDict items) <> [] ->
          post_config safe_load raw service
          = Done (Raise (UnprocessableEntity (validate_config_payload (PDict items))))
          /\ respond (Raise (UnprocessableEntity (validate_config_payload (PDict items))))
             = (422, PDict [("errors",
                             PList (map PStr (validate_config_payload (PDict items))))]))
    /\ ((exists data, accepted safe_load raw data)
        <-> forall r, post_config safe_load raw service <> Done r)
    /\ (forall (to_char : Z -> string) (now : Z) (st : Db.store),
          (forall data, ~ accepted safe_load raw data) ->
          snd (run to_char now (post_config safe_load raw service) st) = st).
Proof.
  intros safe_load raw service.
  assert (Hacc : (exists data, accepted safe_load raw data)
                 <-> forall r, post_config safe_load raw service <> Done r).
  { split.
    - intros [data Hacc] r.
      destruct (dict_get "version" data) eqn:Hg.
      1: rewrite (post_config_auto safe_load raw service data Hacc Hg); discriminate.
      all: rewrite (post_config_explicit safe_load raw service data _ Hacc Hg);
        discriminate.
    - intros Hn. unfold post_config in Hn. unfold accepted.
      destruct raw as [|c raw']; [now elim (Hn _ eq_refl)|].
      destruct (safe_load (String c raw')) as [data | msg | e];
        try (now elim (Hn _ eq_refl)).
      destruct data as [| | | | | |data]; try (now elim (Hn _ eq_refl)).
      destruct (validate_config_payload (PDict data)) eqn:Hv;
        [|now elim (Hn _ eq_refl)].
      exists data. repeat split; [discriminate | exact Hv]. }
  split; [intros ->; reflexivity|].
  split; [intros msg Hraw Hl; unfold post_config;
          destruct raw; [now elim Hraw | now rewrite Hl]|].
  split; [intros data Hraw Hl Hn; unfold post_config;
          destruct raw; [now elim Hraw|]; rewrite Hl;
          destruct data; try reflexivity; now elim (Hn items)|].
  split; [|split; [exact Hacc|]].
  - intros items Hraw Hl Hv. split; [|reflexivity].
    unfold post_config. destruct raw; [now elim Hraw|]. rewrite Hl.
    destruct (validate_config_payload (PDict items)); [now elim Hv | reflexivity].
  - intros to_char now st Hn.
    destruct (post_config safe_load raw service) as [r | X c k] eqn:Ep;
      [reflexivity|].
    destruct (proj2 Hacc) as [data Hd]; [intros r; discriminate|].
    now elim (Hn data).
Qed.

Lemma post_config_rejections_witness :
  post_config (fun _ => Loaded (PDict [("version", PStr "x")])) "version: x" "svc"
  = Done (Raise (UnprocessableEntity
                   [ "Invalid type for version: expected int";
                     "Missing required field: database.host";
                     "Missing required field: database.port" ])).
Proof.
  apply (proj1 (proj2 (proj2 (proj2 (post_config_rejections
           (fun _ => Loaded (PDict [("version", PStr "x")])) "version: x" "svc"))))
           [("version", PStr "x")]);
    [discriminate | reflexivity | discriminate].
Defined.

Section Sequences.

Variable safe_load : string -> loaded.
Variable to_char : Z -> string.

Lemma counted_latest (service : string) (st : Db.store) (base : Z) :
  counted_from service st base ->
  match Db.get_latest_version service st with None => 1 | Some m => m + 1 end
  = base + 1.
Proof.
  intros [[Hn ->] | Hg].
  - now rewrite (latest_no_rows service st Hn).
  - now rewrite (latest_greatest service st base Hg).
Qed.

Lemma counted_bound (service : string) (st : Db.store) (base : Z) :
  counted_from service st base ->
  forall r, In r (Db.rows st) -> Db.row_service r = service ->
            Db.row_version r < base + 1.
Proof.
  intros [[Hn _] | [_ Hle]] r Hr Hs.
  - now elim (Hn r Hr).
  - specialize (Hle r Hr Hs). lia.
Qed.

(** One submission without a version that the store can hold: what it
    answers, the row the store gains, and where the count stands
    afterwards. *)
Lemma auto_post_state (raw service : string) (data : list (string * pyval))
    (st : Db.store) (now base : Z) :
  accepted safe_load raw data -> dict_get "version" data = PNone ->
  counted_from service st base ->
  storable service (base + 1)
    (PDict (dict_set "version" (PInt (base + 1)) data)) = true ->
  let r := Db.mk_row (Db.next_id st) service (base + 1)
             (PDict (dict_set "version" (PInt (base + 1)) data)) now in
  run to_char now (post_config safe_load raw service) st
  = (Return (saved service (PInt (base + 1))),
     Db.mk_store (Db.rows st ++ [r]) (Db.next_id st + 1))
  /\ counted_from service
       (Db.mk_store (Db.rows st ++ [r]) (Db.next_id st + 1)) (base + 1).
Proof.
  intros Hacc Hg Hc Hs r.
  pose proof (run_post_config_auto safe_load to_char raw service data st now Hacc Hg)
    as Hrun.
  cbv zeta in Hrun. rewrite (counted_latest service st base Hc) in Hrun.
  split; [apply Hrun; now apply storable_refused|].
  right. split.
  - exists r. split; [|now split].
    cbn [Db.rows]. apply in_or_app. right. now left.
  - intros x Hx Hxs. cbn [Db.rows] in Hx.
    apply in_app_or in Hx as [Hx | [<- | []]]; [|cbn; lia].
    pose proof (counted_bound service st base Hc x Hx Hxs). lia.
Qed.

Lemma consecutive_S (first : Z) (n : nat) :
  consecutive first (S n) = first :: consecutive (first + 1) n.
Proof.
  unfold consecutive. cbn [seq map]. f_equal; [lia|].
  rewrite <- seq_shift, map_map. apply map_ext. intros k. lia.
Qed.

Lemma submit_all_consecutive (service : string) (reqs : list (string * Z)) :
  forall st base,
    counted_from service st base ->
    (forall k raw now, nth_error reqs k = Some (raw, now) ->
       exists data,
         accepted safe_load raw data /\ dict_mem "version" data = false
         /\ storable service (base + 1 + Z.of_nat k)
              (PDict (dict_set "version" (PInt (base + 1 + Z.of_nat k)) data))
            = true) ->
    fst (submit_all safe_load to_char service reqs st)
    = map (fun v => Return (saved service (PInt v)))
          (consecutive (base + 1) (length reqs))
    /\ exists added,
         Db.rows (snd (submit_all safe_load to_char service reqs st))
         = Db.rows st ++ added
         /\ Forall (fun r => Db.row_service r = service) added
         /\ map Db.row_version added = consecutive (base + 1) (length reqs).
Proof.
  induction reqs as [|[raw now] rest IH]; intros st base Hc Hall.
  - simpl. split; [reflexivity|]. exists []. rewrite app_nil_r. now repeat split.
  - destruct (Hall 0%nat raw now eq_refl) as (data & Hacc & Hmem & Hs).
    rewrite Z.add_0_r in Hs.
    destruct (auto_post_state raw service data st now base Hacc
                (dict_get_absent _ _ Hmem) Hc Hs) as [Hrun Hc1].
    cbn [submit_all length]. rewrite Hrun.
    match type of Hc1 with counted_from _ ?s _ => set (st1 := s) in * end.
    destruct (IH st1 (base + 1) Hc1) as (Hr & added & Hrows & Hsvc & Hvs).
    { intros k raw' now' Hk.
      destruct (Hall (S k) raw' now' Hk) as (data' & Hacc' & Hmem' & Hs').
      exists data'. split; [exact Hacc'|]. split; [exact Hmem'|].
      replace (base + 1 + 1 + Z.of_nat k) with (base + 1 + Z.of_nat (S k)) by lia.
      exact Hs'. }
    destruct (submit_all safe_load to_char service rest st1) as [rs st2].
    cbn [fst snd] in *. rewrite consecutive_S. cbn [map]. split.
    + now rewrite Hr.
    + eexists. split; [|split].
      * rewrite Hrows. unfold st1. cbn [Db.rows]. rewrite <- app_assoc. reflexivity.
      * constructor; [reflexivity | exact Hsvc].
      * cbn [app map Db.row_version]. now rewrite Hvs.
Qed.

End Sequences.

(** X14: any number of submissions without a version that the store can
    hold, served one after the other, are saved under consecutive
    versions: counting from the greatest version of the service (from 0
    for a service without rows), the k-th one gets that number plus k,
    and the rows the store gains are rows of the service with these
    versions, in this order. *)
Theorem submissions_get_consecutive_versions :
  forall (safe_load : string -> loaded) (to_char : Z -> string)
         (service : string) (reqs : list (string * Z)) (st : Db.store) (base : Z),
    counted_from service st base ->
    (forall k raw now, nth_error reqs k = Some (raw, now) ->
       exists data,
         accepted safe_load raw data /\ dict_mem "version" data = false
         /\ storable service (base + 1 + Z.of_nat k)
              (PDict (dict_set "version" (PInt (base + 1 + Z.of_nat k)) data))
            = true) ->
    fst (submit_all safe_load to_char service reqs st)
    = map (fun v => Return (saved service (PInt v)))
          (consecutive (base + 1) (length reqs))
    /\ exists added,
         Db.rows (snd (submit_all safe_load to_char service reqs st))
         = Db.rows st ++ added
         /\ Forall (fun r => Db.row_service r = service) added
         /\ map Db.row_version added = consecutive (base + 1) (length reqs).
Proof.
  intros safe_load to_char service reqs st base.
  apply submit_all_consecutive.
Qed.

Lemma submissions_get_consecutive_versions_witness :
  let st := Db.mk_store [Db.mk_row 1 "svc" 7 (PDict doc_v1) 1;
                         Db.mk_row 2 "other" 20 (PDict doc_v1) 1] 3 in
  fst (submit_all (fun _ => Loaded (PDict doc_auto)) (fun _ => "") "svc"
         [("a", 2); ("b", 3); ("c", 4)] st)
  = [Return (saved "svc" (PInt 8)); Return (saved "svc" (PInt 9));
     Return (saved "svc" (PInt 10))].
Proof.
  cbv zeta.
  refine (proj1 (submissions_get_consecutive_versions
                   (fun _ => Loaded (PDict doc_auto)) (fun _ => "") "svc"
                   [("a", 2); ("b", 3); ("c", 4)]
                   (Db.mk_store [Db.mk_row 1 "svc" 7 (PDict doc_v1) 1;
                                 Db.mk_row 2 "other" 20 (PDict doc_v1) 1] 3)
                   7 _ _)).
  - right. split.
    + eexists. split; [left; reflexivity|]. split; reflexivity.
    + intros r [<- | [<- | []]] Hs; cbn; [lia | discriminate Hs].
  - intros k raw now Hk. exists doc_auto.
    destruct k as [|[|[|k]]]; cbn in Hk; try discriminate Hk;
      try (destruct k; discriminate Hk);
      injection Hk as <- <-;
      (split; [split; [discriminate | split; reflexivity]|]);
      split; reflexivity.
Defined.

Section ReadBack.

Import Db.

Lemma order_version_snoc (l : list row) (r : row) :
  Forall (fun x => row_version x < row_version r) l ->
  order_by_version_desc (l ++ [r]) = r :: order_by_version_desc l.
Proof.
  induction 1 as [|a t Ha _ IH]; [reflexivity|].
  simpl. rewrite IH. simpl.
  destruct (Z.ltb_spec (row_version r) (row_version a)); [lia | reflexivity].
Qed.

Lemma get_config_latest_snoc (service : string) (l : list row) (n : Z) (r : row) :
  row_service r = service ->
  (forall x, In x l -> row_service x = service -> row_version x < row_version r) ->
  get_config service None (mk_store (l ++ [r]) n)
  = Some (row_version r, row_payload r).
Proof.
  intros Hs Hlt. unfold get_config. cbn [rows]. rewrite filter_app.
  cbn [filter]. unfold of_service at 2. rewrite Hs, String.eqb_refl.
  rewrite order_version_snoc; [reflexivity|].
  rewrite Forall_forall. intros x Hx.
  apply filter_In in Hx as [Hx Hxs]. apply String.eqb_eq in Hxs. now apply Hlt.
Qed.

Lemma get_config_version_snoc (service : string) (v : Z) (l : list row)
    (n : Z) (r : row) :
  existsb (of_service_version service v) l = false ->
  row_service r = service -> row_version r = v ->
  get_config service (Some v) (mk_store (l ++ [r]) n)
  = Some (v, row_payload r).
Proof.
  intros Hex Hs Hv. rewrite get_config_version_rows. cbn [rows].
  assert (Hp : of_service_version service v r = true).
  { unfold of_service_version, of_service.
    now rewrite Hs, Hv, String.eqb_refl, Z.eqb_refl. }
  rewrite filter_app, (filter_nil_existsb _ _ Hex). cbn [filter app].
  now rewrite Hp, Hv.
Qed.

(** A version no row of the service has is not found by the uniqueness
    check. *)
Lemma has_version_fresh (service : string) (n : Z) (st : store) :
  (forall r, In r (rows st) -> row_service r = service -> row_version r <> n) ->
  has_version service n st = false.
Proof.
  intros Hf. unfold has_version.
  destruct (existsb _ (rows st)) eqn:E; [|reflexivity].
  apply existsb_exists in E as (r & Hr & Hp).
  apply andb_prop in Hp as [Hs Hv].
  apply String.eqb_eq in Hs. apply Z.eqb_eq in Hv. now elim (Hf r Hr Hs).
Qed.

End ReadBack.

(** X15: a submission that names a version no row of the service has,
    and that the store can hold, is saved under that version: the store
    gains one row, of the service, with that version and the store time
    of the insert; the service had no configuration of that version
    before and has one after. *)
Theorem post_config_explicit_version :
  forall (safe_load : string -> loaded) (to_char : Z -> string)
         (raw service : string) (data : list (string * pyval)) (n : Z)
         (st : Db.store) (now : Z),
    accepted safe_load raw data -> dict_get "version" data = PInt n ->
    (forall r, In r (Db.rows st) -> Db.row_service r = service ->
               Db.row_version r <> n) ->
    storable service n (PDict data) = true ->
    exists st' r,
      run to_char now (post_config safe_load raw service) st
      = (Return (saved service (PInt n)), st')
      /\ Db.rows st' = Db.rows st ++ [r]
      /\ Db.row_service r = service
      /\ Db.row_version r = n
      /\ Db.row_created_at r = now
      /\ Db.get_config service (Some n) st = None
      /\ exists d, Db.get_config service (Some n) st' = Some (n, d).
Proof.
  intros safe_load to_char raw service data n st now Hacc Hg Hfresh Hs.
  pose proof (has_version_fresh service n st Hfresh) as Hh.
  rewrite (post_config_explicit safe_load raw service data (PInt n) Hacc Hg)
    by discriminate.
  cbn [run perform]. unfold Db.insert_config, Db.insert_row.
  cbn [Db.column_value]. rewrite Hh, (storable_refused service n (PDict data) Hs).
  cbn [resume ret run].
  eexists. eexists. split; [reflexivity|].
  cbn [Db.rows Db.row_service Db.row_version Db.row_created_at].
  repeat (split; [reflexivity|]).
  unfold Db.has_version in Hh. split.
  - rewrite get_config_version_rows.
    now rewrite (filter_nil_existsb (Db.of_service_version service n) _ Hh).
  - eexists. now apply get_config_version_snoc.
Qed.

Lemma post_config_explicit_version_witness :
  exists st' r,
    run (fun _ => "") 5
      (post_config
         (fun _ => Loaded (PDict (("version", PInt (-3)) :: doc_auto)))
         "version: -3" "svc")
      (Db.mk_store [Db.mk_row 1 "other" (-3) (PDict doc_v1) 1] 2)
    = (Return (saved "svc" (PInt (-3))), st')
    /\ Db.rows st' = [Db.mk_row 1 "other" (-3) (PDict doc_v1) 1] ++ [r]
    /\ Db.row_service r = "svc"
    /\ Db.row_version r = -3
    /\ Db.row_created_at r = 5
    /\ Db.get_config "svc" (Some (-3))
         (Db.mk_store [Db.mk_row 1 "other" (-3) (PDict doc_v1) 1] 2) = None
    /\ exists d, Db.get_config "svc" (Some (-3)) st' = Some (-3, d).
Proof.
  apply (post_config_explicit_version
           (fun _ => Loaded (PDict (("version", PInt (-3)) :: doc_auto)))
           (fun _ => "") "version: -3" "svc"
           (("version", PInt (-3)) :: doc_auto) (-3)
           (Db.mk_store [Db.mk_row 1 "other" (-3) (PDict doc_v1) 1] 2) 5);
    [split; [discriminate | split; reflexivity] | reflexivity | | reflexivity].
  intros r [<- | []] Hs. discriminate Hs.
Defined.

Section RoundTrip.

Variable safe_load : string -> loaded.
Variable to_char : Z -> string.
Variable py_int : string -> option Z.
Variable json_loads_body : string -> Read.jloaded.
Variable json_loads : string -> Read.jloaded.
Variable json_dumps : pyval -> string.
Variable jinja_other : string -> pyval -> Jinja.outcome.

Let GET := Read.get_config_route py_int json_loads_body json_loads json_dumps
             jinja_other.
Let RENDER := Read.render_config_route py_int json_loads_body json_loads
                jinja_other.

(** What [get_config_route] answers when the row is found, the payload
    is a map and no template is asked for. *)
Lemma get_route_plain (req : Read.request) (service : string) (st : Db.store)
    (v : option Z) (ver : Z) (items : list (string * pyval)) :
  Read.version_arg py_int req = Return v ->
  Read.template_arg req = Return false ->
  Db.get_config service v st = Some (ver, PDict items) ->
  Read.run (GET req service) st = Return (200, PDict items).
Proof.
  intros Hv Ht Hg. unfold GET, Read.get_config_route. rewrite Hv.
  cbn [Read.run]. rewrite Hg. cbn. now rewrite Ht.
Qed.

(** X16: what is submitted can be read: after a submission without a
    version that the store can hold, a GET of the service with no query
    argument answers 200 with a map in which [version] is the assigned
    number. *)
Theorem post_then_get (raw service : string) (data : list (string * pyval))
    (st : Db.store) (now base : Z) (body : string) :
  accepted safe_load raw data -> dict_mem "version" data = false ->
  counted_from service st base ->
  storable service (base + 1)
    (PDict (dict_set "version" (PInt (base + 1)) data)) = true ->
  let st' := snd (run to_char now (post_config safe_load raw service) st) in
  fst (run to_char now (post_config safe_load raw service) st)
  = Return (saved service (PInt (base + 1)))
  /\ exists items,
       Read.run (GET (Read.mk_request [] body) service) st'
       = Return (200, PDict items)
       /\ dict_find "version" items = Some (PInt (base + 1)).
Proof.
  intros Hacc Hmem Hc Hs st'.
  destruct (auto_post_state safe_load to_char raw service data st now base Hacc
              (dict_get_absent _ _ Hmem) Hc Hs) as [Hrun _].
  unfold st'. rewrite Hrun. cbn [fst snd].
  split; [reflexivity|]. eexists. split; [|apply dict_find_set].
  apply (get_route_plain _ service _ None (base + 1)); try reflexivity.
  rewrite get_config_latest_snoc; [reflexivity | reflexivity |].
  intros x Hx Hxs. cbn [Db.row_version].
  now apply (counted_bound service st base Hc).
Qed.

End RoundTrip.

Lemma post_then_get_witness :
  exists items,
    Read.run
      (Read.get_config_route (fun _ => None) (fun _ => Read.JValue PNone)
         (fun _ => Read.JValue PNone) (fun _ => "") (fun _ _ => Rendered "")
         (Read.mk_request [] "") "svc")
      (snd (run (fun _ => "") 1
              (post_config (fun _ => Loaded (PDict doc_auto)) "body" "svc")
              Db.empty_store))
    = Return (200, PDict items)
    /\ dict_find "version" items = Some (PInt (0 + 1)).
Proof.
  apply (post_then_get (fun _ => Loaded (PDict doc_auto)) (fun _ => "")
           (fun _ => None) (fun _ => Read.JValue PNone) (fun _ => Read.JValue PNone)
           (fun _ => "") (fun _ _ => Rendered "")
           "body" "svc" doc_auto Db.empty_store 1 0 "");
    [split; [discriminate | split; reflexivity] | reflexivity | | reflexivity].
  left. split; [intros r [] | reflexivity].
Defined.

(** ** Read routes *)

Section ReadRoutes.

Variable py_int : string -> option Z.
Variable json_loads_body : string -> Read.jloaded.
Variable json_loads : string -> Read.jloaded.
Variable json_dumps : pyval -> string.
Variable jinja_other : string -> pyval -> Jinja.outcome.

Let GET := Read.get_config_route py_int json_loads_body json_loads json_dumps
             jinja_other.
Let RENDER := Read.render_config_route py_int json_loads_body json_loads
                jinja_other.


(** What [render_config_route] answers when the row is found with a map
    as payload and the body gives a context. *)
Lemma render_route_found (req : Read.request) (service : string) (st : Db.store)
    (v : option Z) (ver : Z) (items : list (string * pyval)) (ctx : pyval) :
  Read.version_arg py_int req = Return v ->
  Db.get_config service v st = Some (ver, PDict items) ->
  Read.body_context json_loads_body req = Return ctx ->
  Read.run (RENDER req service) st
  = Read.bind (Read.render_or_422 jinja_other (PDict items) ctx)
      (fun rendered => Return (200, rendered)).
Proof.
  intros Hv Hg Hc. unfold RENDER, Read.render_config_route. rewrite Hv.
  cbn [Read.run]. rewrite Hg. cbn [Read.bind Read.payload_of_render].
  now rewrite Hc.
Qed.

(** X18: how the render route answers for a stored map and a context:
    422 with a single message when the first failing leaf in document
    order raises [ValueError] (what [_render] turns a [TemplateError]
    into); the generic 500 when it raises an exception of another class;
    200 with the substituted document when no leaf fails. *)
Theorem render_route_status (req : Read.request) (service : string)
    (st : Db.store) (v : option Z) (ver : Z) (items : list (string * pyval))
    (ctx : pyval) :
  Read.version_arg py_int req = Return v ->
  Db.get_config service v st = Some (ver, PDict items) ->
  Read.body_context json_loads_body req = Return ctx ->
  (forall msg,
      first_error jinja_other ctx (leaves (PDict items)) = Some (ValueError msg) ->
      respond (Read.run (RENDER req service) st)
      = (422, PDict [("errors", PList [PStr msg])]))
  /\ (forall cls,
        first_error jinja_other ctx (leaves (PDict items)) = Some (PyError cls) ->
        respond (Read.run (RENDER req service) st) = internal_error)
  /\ (first_error jinja_other ctx (leaves (PDict items)) = None ->
      exists out,
        Read.run (RENDER req service) st = Return (200, out)
        /\ rendered_as jinja_other ctx (PDict items) out).
Proof.
  intros Hv Hg Hc.
  rewrite (render_route_found req service st v ver items ctx Hv Hg Hc).
  pose proof (render_first_error jinja_other ctx (PDict items)) as Hf.
  unfold Read.render_or_422, render_config.
  split; [|split].
  - intros msg He. rewrite He in Hf. now rewrite Hf.
  - intros cls He. rewrite He in Hf. now rewrite Hf.
  - intros He. rewrite He in Hf. destruct Hf as [out Ho].
    pose proof (render_sound jinja_other ctx _ _ Ho) as Hra.
    rewrite Ho. inversion Hra; subst. eexists. split; [reflexivity | exact Hra].
Qed.

(** X19: with [template=1] the GET route and the render route are the
    same function of the request and the store, whenever the stored
    payload is a map or a string (the GET route alone re-encodes the
    other payloads). *)
Theorem get_with_template_is_render (req : Read.request) (service : string)
    (st : Db.store) :
  Read.template_arg req = Return true ->
  (forall v ver payload,
      Read.version_arg py_int req = Return v ->
      Db.get_config service v st = Some (ver, payload) ->
      match payload with PDict _ | PStr _ => True | _ => False end) ->
  Read.run (GET req service) st = Read.run (RENDER req service) st.
Proof.
  intros Ht Hp.
  unfold GET, RENDER, Read.get_config_route, Read.render_config_route.
  destruct (Read.version_arg py_int req) as [v|e] eqn:Hv; [|reflexivity].
  cbn [Read.run].
  destruct (Db.get_config service v st) as [[ver payload]|] eqn:Hg; [|reflexivity].
  specialize (Hp v ver payload eq_refl Hg).
  cbn [Read.bind].
  destruct payload; try contradiction.
  - cbn [Read.payload_of_get Read.payload_of_render].
    destruct (Read.loads_or_raise (json_loads s)) as [p|e]; [|reflexivity].
    cbn [Read.bind]. now rewrite Ht.
  - cbn [Read.payload_of_get Read.payload_of_render Read.bind]. now rewrite Ht.
Qed.

End ReadRoutes.


Lemma render_route_status_witness :
  respond
    (Read.run
       (Read.render_config_route (fun _ => None)
          (fun _ => Read.JValue (PDict [("host", PStr "x")]))
          (fun _ => Read.JValue PNone) (fun _ _ => Rendered "")
          (Read.mk_request [] "{}") "svc")
       (snd (Db.insert_config 1 "svc" (PInt 1)
               (PDict [("url", PStr "http://{{host}}:{{port}}")]) Db.empty_store)))
  = (422, PDict [("errors", PList [PStr "Template render error: 'port' is undefined"])]).
Proof.
  apply (proj1 (render_route_status (fun _ => None)
                  (fun _ => Read.JValue (PDict [("host", PStr "x")]))
                  (fun _ => Read.JValue PNone) (fun _ _ => Rendered "")
                  (Read.mk_request [] "{}") "svc"
                  (snd (Db.insert_config 1 "svc" (PInt 1)
                          (PDict [("url", PStr "http://{{host}}:{{port}}")])
                          Db.empty_store))
                  None 1 [("url", PStr "http://{{host}}:{{port}}")]
                  (PDict [("host", PStr "x")])
                  eq_refl eq_refl eq_refl));
    reflexivity.
Defined.

Lemma get_with_template_is_render_witness :
  Read.run
    (Read.get_config_route (fun _ => None) (fun _ => Read.JValue (PDict []))
       (fun _ => Read.JValue PNone) (fun _ => "") (fun _ _ => Rendered "")
       (Read.mk_request [("template", ["1"])] "") "svc")
    (snd (Db.insert_config 1 "svc" (PInt 1) (PDict doc_v1) Db.empty_store))
  = Read.run
      (Read.render_config_route (fun _ => None) (fun _ => Read.JValue (PDict []))
         (fun _ => Read.JValue PNone) (fun _ _ => Rendered "")
         (Read.mk_request [("template", ["1"])] "") "svc")
      (snd (Db.insert_config 1 "svc" (PInt 1) (PDict doc_v1) Db.empty_store)).
Proof.
  apply (get_with_template_is_render (fun _ => None) (fun _ => Read.JValue (PDict []))
           (fun _ => Read.JValue PNone) (fun _ => "") (fun _ _ => Rendered "")
           (Read.mk_request [("template", ["1"])] "") "svc"
           (snd (Db.insert_config 1 "svc" (PInt 1) (PDict doc_v1) Db.empty_store))).
  - reflexivity.
  - intros v ver payload Hv Hg. injection Hv as <-.
    vm_compute in Hg. injection Hg as _ <-. exact I.
Defined.

(** ** app/models.py *)

(** X20: [ConfigModel]'s check of [version] and the validator disagree
    on one input only: the model refuses a document exactly when the
    validator reports a type error for [version] or the document has
    [version: null], which the validator lets through; a document it
    does not refuse is handed back unchanged. *)
Theorem model_version_check (data : list (string * pyval)) :
  (Models.version_type_if_present data = Raise (ValueError "version must be integer")
   <-> In (type_error "version" TInt) (validate_config_payload (PDict data))
       \/ dict_find "version" data = Some PNone)
  /\ (Models.version_type_if_present data = Return data
      \/ Models.version_type_if_present data
         = Raise (ValueError "version must be integer")).
Proof.
  assert (Hval : In (type_error "version" TInt) (validate_config_payload (PDict data))
                 <-> violates (PDict data) (WrongType "version" TInt) = true).
  { split.
    - intros Hin. apply reported_violated in Hin as (c & Hc & Hv & Hm).
      now rewrite <- (message_inj c (WrongType "version" TInt) Hc
                        ltac:(in_list) Hm).
    - apply (violated_reported _ (WrongType "version" TInt)). in_list. }
  rewrite Hval. cbn [violates]. rewrite dig_version.
  unfold Models.version_type_if_present, dict_mem, dict_get.
  destruct (dict_find "version" data) as [v|].
  - destruct v; cbn; split; auto; split; auto;
      try discriminate;
      try (intros [H | H]; [discriminate H | discriminate H || reflexivity]).
  - cbn. split; [|now left]. split; [discriminate|].
    intros [H | H]; discriminate H.
Qed.
